(** * PyFTS5: the FullTextSearchDB wrapper of [fts.py]

    A shallow embedding of the class [FullTextSearchDB] and of the part of
    Python's [sqlite3] module and of SQLite's FTS5 table it drives, followed
    by the properties of the wrapper.

    The wrapper owns one attribute, [self.conn]; every method is a sequence
    of calls on that connection.  Methods are therefore computations over a
    [Connection] that either return a value or raise, and that keep whatever
    they did to the connection before raising. *)

From Stdlib Require Import ZArith List String Ascii Bool Lia Permutation.
From Stdlib Require Import DecimalString.
Import ListNotations.
Local Open Scope string_scope.
Local Open Scope list_scope.
Local Open Scope Z_scope.

(** ** Python values and exceptions *)

(** The values that cross the [sqlite3] boundary here: [int] and [str]. *)
Inductive pyval : Type :=
| PyInt (z : Z)
| PyStr (s : string).

(** A Python tuple: a parameter set on the way in, a result row on the way out. *)
Definition tuple := list pyval.

Inductive programming_fault : Type :=
| ClosedDatabase                          (* Cannot operate on a closed database. *)
| IncorrectBindings (uses supplied : nat) (* Incorrect number of bindings supplied. *).

Inductive operational_fault : Type :=
| QuerySyntax     (* the MATCH expression was rejected by FTS5 *)
| DatabaseFull    (* no rowid could be assigned *)
| NoSuchModule    (* fts5 is not compiled in *).

Inductive exn : Type :=
| ProgrammingError (why : programming_fault)
| OperationalError (why : operational_fault)
| IntegrityError     (* constraint failed *)
| InterfaceError     (* a parameter of an unsupported type *)
| OverflowError      (* Python int too large to convert to SQLite INTEGER *)
| RuntimeError       (* raised by __init__ *).

Inductive outcome (A : Type) : Type :=
| Ok (a : A)
| Raise (e : exn).
Arguments Ok {A} a.
Arguments Raise {A} e.

(** ** The connection *)

Inductive statement : Type :=
| CreateDocuments      (* CREATE VIRTUAL TABLE documents USING fts5(content) *)
| InsertRowidContent   (* INSERT INTO documents(rowid, content) VALUES (?, ?) *)
| InsertContent        (* INSERT INTO documents(content) VALUES (?) *)
| SelectMatch          (* SELECT rowid, content FROM documents WHERE documents MATCH ? *)
| SelectHighlightMatch (* SELECT rowid, highlight(documents, 0, ?, ?) AS highlighted,
                          content FROM documents WHERE documents MATCH ? *).

(** Number of [?] placeholders of a statement. *)
Definition placeholders (st : statement) : nat :=
  match st with
  | CreateDocuments => 0
  | InsertRowidContent => 2
  | InsertContent => 1
  | SelectMatch => 1
  | SelectHighlightMatch => 3
  end.

Definition is_dml (st : statement) : bool :=
  match st with
  | InsertRowidContent | InsertContent => true
  | _ => false
  end.

(** Calls made on [self.conn], in the order they are made. *)
Inductive call : Type :=
| CallEnableLoadExtension
| CallExecute (st : statement) (args : tuple)
| CallExecuteMany (st : statement) (argss : list tuple)
| CallCommit
| CallClose.

(** The [documents] table: one row per stored document, keyed by rowid. *)
Definition table := list (Z * string).

Record Connection : Type := mkConnection {
  closed : bool;            (* the handle has been closed *)
  rows : table;             (* what a SELECT on this connection sees *)
  durable : table;          (* the rows as of the last commit *)
  in_transaction : bool;    (* an implicit transaction is open *)
  calls : list call         (* every call made on the handle *)
}.

Definition set_rows (t : table) (c : Connection) : Connection :=
  mkConnection (closed c) t (durable c) (in_transaction c) (calls c).

Definition begin_transaction (c : Connection) : Connection :=
  mkConnection (closed c) (rows c) (durable c) true (calls c).

Definition record_call (k : call) (c : Connection) : Connection :=
  mkConnection (closed c) (rows c) (durable c) (in_transaction c) (calls c ++ [k]).

Definition commit_transaction (c : Connection) : Connection :=
  mkConnection (closed c) (rows c) (rows c) false (calls c).

Definition mark_closed (c : Connection) : Connection :=
  mkConnection true (rows c) (durable c) (in_transaction c) (calls c).

(** sqlite3.connect(":memory:") *)
Definition connect : Connection := mkConnection false [] [] false [].

(** ** The index engine

    Tokenising, matching and highlighting are FTS5's business; the wrapper
    only hands strings over.  They are taken as given. *)
Record Engine : Type := mkEngine {
  (* whether CREATE VIRTUAL TABLE ... USING fts5 succeeds *)
  fts5_available : bool;
  (* a MATCH expression is rejected, or denotes a test on a document's text *)
  fts5_query : string -> option (string -> bool);
  (* highlight(documents, 0, open, close) of a row under a MATCH expression *)
  fts5_highlight : string -> string -> string -> string -> string;
  (* the rowid SQLite draws once the largest rowid is taken, if it finds one *)
  fts5_random_rowid : list Z -> option Z
}.

Definition INT64_MIN : Z := - 2 ^ 63.
Definition INT64_MAX : Z := 2 ^ 63 - 1.

Definition int64_ok (z : Z) : bool := (INT64_MIN <=? z) && (z <=? INT64_MAX).

Definition rowids (t : table) : list Z := map fst t.

Definition has_rowid (id : Z) (t : table) : bool :=
  existsb (fun r => fst r =? id) t.

(** Rows are kept, and scanned, in rowid order. *)
Fixpoint insert_row (r : Z * string) (t : table) : table :=
  match t with
  | [] => [r]
  | r' :: t' => if fst r <? fst r' then r :: t else r' :: insert_row r t'
  end.

Definition max_rowid (t : table) : option Z :=
  fold_right
    (fun r acc =>
       match acc with
       | None => Some (fst r)
       | Some m => Some (Z.max (fst r) m)
       end)
    None t.

(** The rowid given to a row inserted without one: 1 in an empty table, one
    more than the largest otherwise; when the largest possible rowid is
    taken SQLite tries unused ones at random and gives up with SQLITE_FULL. *)
Definition new_rowid (eng : Engine) (t : table) : option Z :=
  match max_rowid t with
  | None => Some 1
  | Some m =>
      if m <? INT64_MAX then Some (m + 1)
      else
        match fts5_random_rowid eng (rowids t) with
        | Some r => if int64_ok r && negb (has_rowid r t) then Some r else None
        | None => None
        end
  end.

(** The rows of a SELECT ... WHERE documents MATCH ?, with or without the
    highlight column. *)
Definition select_rows (eng : Engine) (hl : option (string * string))
           (query : string) (t : table) : outcome (list tuple) :=
  match fts5_query eng query with
  | None => Raise (OperationalError QuerySyntax)
  | Some matches =>
      Ok (map
            (fun r =>
               match hl with
               | None => [PyInt (fst r); PyStr (snd r)]
               | Some (o, c) =>
                   [PyInt (fst r);
                    PyStr (fts5_highlight eng query o c (snd r));
                    PyStr (snd r)]
               end)
            (filter (fun r => matches (snd r)) t))
  end.

(** One run of a statement whose parameters are bound.  The rowid is the
    key of the table: an INSERT that names one already in use fails with
    SQLITE_CONSTRAINT, which [sqlite3] raises as IntegrityError, and adds
    nothing.  A MATCH selects, in rowid order, the rows the expression
    accepts. *)
Definition step (eng : Engine) (st : statement) (args : tuple) (c : Connection)
  : outcome (list tuple) * Connection :=
  match st, args with
  | CreateDocuments, [] =>
      if fts5_available eng then (Ok [], set_rows [] c)
      else (Raise (OperationalError NoSuchModule), c)
  | InsertRowidContent, [PyInt id; PyStr content] =>
      if has_rowid id (rows c) then (Raise IntegrityError, c)
      else (Ok [], set_rows (insert_row (id, content) (rows c)) c)
  | InsertContent, [PyStr content] =>
      match new_rowid eng (rows c) with
      | Some id => (Ok [], set_rows (insert_row (id, content) (rows c)) c)
      | None => (Raise (OperationalError DatabaseFull), c)
      end
  | SelectMatch, [PyStr query] =>
      (select_rows eng None query (rows c), c)
  | SelectHighlightMatch, [PyStr o; PyStr cl; PyStr query] =>
      (select_rows eng (Some (o, cl)) query (rows c), c)
  | _, _ => (Raise InterfaceError, c)
  end.

(** Binding a parameter set: the count is checked first, then each value is
    converted; an [int] outside 64 bits does not convert. *)
Definition bind_parameters (st : statement) (args : tuple) : outcome unit :=
  if negb (Nat.eqb (List.length args) (placeholders st)) then
    Raise (ProgrammingError (IncorrectBindings (placeholders st) (List.length args)))
  else if forallb (fun v => match v with PyInt z => int64_ok z | PyStr _ => true end) args
       then Ok tt
       else Raise OverflowError.

(** ** Computations on the connection *)

Definition M (A : Type) : Type := Connection -> outcome A * Connection.

Definition ret {A} (a : A) : M A := fun c => (Ok a, c).

Definition raise {A} (e : exn) : M A := fun c => (Raise e, c).

Definition bind {A B} (m : M A) (k : A -> M B) : M B :=
  fun c =>
    match m c with
    | (Ok a, c') => k a c'
    | (Raise e, c') => (Raise e, c')
    end.

Notation "x <- m ;; k" := (bind m (fun x => k))
  (at level 100, m at next level, right associativity).
Notation "m ;;; k" := (bind m (fun _ => k))
  (at level 100, right associativity).

(** [try: m  except OperationalError as e: raise RuntimeError(...) from e] *)
Definition reraise_operational {A} (m : M A) : M A :=
  fun c =>
    match m c with
    | (Raise (OperationalError _), c') => (Raise RuntimeError, c')
    | other => other
    end.

Definition called (k : call) : M unit := fun c => (Ok tt, record_call k c).

(** Every method of a connection first checks that it is still open. *)
Definition check_connection : M unit :=
  fun c =>
    if closed c then (Raise (ProgrammingError ClosedDatabase), c) else (Ok tt, c).

(** Before a DML statement an implicit transaction is opened. *)
Definition begin_if_dml (st : statement) : M unit :=
  fun c => (Ok tt, if is_dml st then begin_transaction c else c).

Definition bound (st : statement) (args : tuple) : M unit :=
  fun c => (bind_parameters st args, c).

(** conn.execute(sql, parameters), with the rows of [fetchall()] as result. *)
Definition conn_execute (eng : Engine) (st : statement) (args : tuple)
  : M (list tuple) :=
  called (CallExecute st args) ;;;
  check_connection ;;;
  begin_if_dml st ;;;
  bound st args ;;;
  step eng st args.

(** The loop of executemany over the parameter sets: the first set that
    fails to bind or to run ends it, and what ran before stays. *)
Fixpoint run_many (eng : Engine) (st : statement) (argss : list tuple) : M unit :=
  match argss with
  | [] => ret tt
  | args :: rest =>
      bound st args ;;;
      _ <- step eng st args ;;
      run_many eng st rest
  end.

(** conn.executemany(sql, seq_of_parameters) *)
Definition conn_executemany (eng : Engine) (st : statement) (argss : list tuple)
  : M unit :=
  called (CallExecuteMany st argss) ;;;
  check_connection ;;;
  begin_if_dml st ;;;
  run_many eng st argss.

(** conn.commit() *)
Definition conn_commit : M unit :=
  called CallCommit ;;;
  check_connection ;;;
  (fun c => (Ok tt, commit_transaction c)).

(** conn.close(); closing a closed connection is accepted. *)
Definition conn_close : M unit :=
  called CallClose ;;;
  (fun c => (Ok tt, mark_closed c)).

(** conn.enable_load_extension(True) *)
Definition conn_enable_load_extension : M unit :=
  called CallEnableLoadExtension ;;;
  check_connection.

(** ** The class FullTextSearchDB

    [self] is the connection it owns. *)

(** A document handed to the store: [(doc_id, content)], [doc_id] possibly [None]. *)
Definition document := (option Z * string)%type.

(** The keyword arguments every search method passes on to [search]. *)
Record search_options : Type := mkOptions {
  highlight : bool;
  hl_prefix : string;
  hl_suffix : string
}.

Definition default_options : search_options := mkOptions false "<b>" "</b>".

(** A [terms] argument: one [str], or a sequence of them. *)
Inductive terms_arg : Type :=
| Str (s : string)
| Seq (l : list string).

Definition dquote : ascii := "034"%char.

(** [str(n)] of an [int], as an f-string renders it. *)
Definition decimal (n : Z) : string := NilZero.string_of_int (Z.to_int n).

(** [sep.join(terms)] *)
Definition join (sep : string) (l : list string) : string := String.concat sep l.

Section FullTextSearchDB.

Variable eng : Engine.

Definition add_document (content : string) (doc_id : option Z) : M unit :=
  match doc_id with
  | Some id =>
      _ <- conn_execute eng InsertRowidContent [PyInt id; PyStr content] ;; ret tt
  | None =>
      _ <- conn_execute eng InsertContent [PyStr content] ;; ret tt
  end ;;;
  conn_commit.

(** The [params] list that add_documents builds from [docs]. *)
Definition build_params (docs : list document) : list tuple :=
  map
    (fun d : document =>
       match fst d with
       | Some id => [PyInt id; PyStr (snd d)]
       | None => [PyStr (snd d)]
       end)
    docs.

Definition add_documents (docs : list document) : M unit :=
  let params := build_params docs in
  match params with
  | p0 :: _ =>
      if Nat.eqb (List.length p0) 2
      then conn_executemany eng InsertRowidContent params
      else conn_executemany eng InsertContent params
  | [] => conn_executemany eng InsertContent params
  end ;;;
  conn_commit.

Definition search (query : string) (kw : search_options) : M (list tuple) :=
  if highlight kw then
    conn_execute eng SelectHighlightMatch
                 [PyStr (hl_prefix kw); PyStr (hl_suffix kw); PyStr query]
  else
    conn_execute eng SelectMatch [PyStr query].

Definition search_phrase (phrase : string) (kw : search_options) : M (list tuple) :=
  let query := String dquote (phrase ++ String dquote "")%string in
  search query kw.

Definition search_prefix (prefix : string) (kw : search_options) : M (list tuple) :=
  let query := (prefix ++ "*")%string in
  search query kw.

(** [if isinstance(terms, str): terms = [terms]] *)
Definition as_list (terms : terms_arg) : list string :=
  match terms with
  | Str s => [s]
  | Seq l => l
  end.

Definition search_and (terms : terms_arg) (kw : search_options) : M (list tuple) :=
  let terms := as_list terms in
  let query := join " AND " terms in
  search query kw.

Definition search_or (terms : terms_arg) (kw : search_options) : M (list tuple) :=
  let terms := as_list terms in
  let query := join " OR " terms in
  search query kw.

Definition search_not (include_term exclude_term : string) (kw : search_options)
  : M (list tuple) :=
  let query := (include_term ++ " NOT " ++ exclude_term)%string in
  search query kw.

Definition search_near (terms : terms_arg) (max_distance : Z) (kw : search_options)
  : M (list tuple) :=
  let terms := as_list terms in
  let query := ("NEAR(" ++ join " " terms ++ ", " ++ decimal max_distance ++ ")")%string in
  search query kw.

Definition close : M unit := conn_close.

Definition __enter__ : M unit := ret tt.

Definition __exit__ : M unit := close.

(** [FullTextSearchDB(documents)]: the constructor run on a new connection.
    [if documents:] is false for [None] and for an empty list. *)
Definition __init__ (documents : option (list document)) : M unit :=
  conn_enable_load_extension ;;;
  reraise_operational (_ <- conn_execute eng CreateDocuments [] ;; ret tt) ;;;
  match documents with
  | Some (d :: ds) => add_documents (d :: ds)
  | _ => ret tt
  end.

Definition new_db (documents : option (list document)) : outcome unit * Connection :=
  __init__ documents connect.

(** [with db: body]: __enter__, the body, then __exit__ whether the body
    returned or raised; __exit__ returns None, so what the body raised
    is raised again after it. *)
Definition with_block {A} (body : M A) : M A :=
  fun c =>
    match __enter__ c with
    | (Raise e, c0) => (Raise e, c0)
    | (Ok _, c0) =>
        let (r, c1) := body c0 in
        match __exit__ c1 with
        | (Raise e, c2) => (Raise e, c2)
        | (Ok _, c2) => (r, c2)
        end
    end.

End FullTextSearchDB.

(** An engine to run examples with: an expression that is not empty matches
    the documents that contain it, and highlighting brackets the whole text. *)
Definition contains (needle hay : string) : bool :=
  match index 0 needle hay with
  | Some _ => true
  | None => false
  end.

Definition demo_engine : Engine :=
  mkEngine true
           (fun q => match q with
                     | EmptyString => None
                     | _ => Some (contains q)
                     end)
           (fun _ o c content => (o ++ content ++ c)%string)
           (fun _ => None).

(** [FullTextSearchDB()] on that engine. *)
Definition empty_store : Connection := snd (new_db demo_engine None).

(** [FullTextSearchDB([(7, "seven")])] on that engine. *)
Definition store_of_seven : Connection :=
  snd (new_db demo_engine (Some [(Some 7, "seven")])).

(** A batch whose second document reuses the identifier of the first. *)
Definition clashing_batch : list document := [(Some 1, "alpha"); (Some 1, "beta")].

(** A batch whose first document carries an identifier and whose second
    does not. *)
Definition mixed_batch : list document := [(Some 1, "alpha"); (None, "beta")].

(** ** Notions the statements use *)

(** The shape every table built through the wrapper has: rowids are 64-bit
    and no two rows share one. *)
Definition store_ok (t : table) : Prop :=
  NoDup (rowids t) /\ Forall (fun z => int64_ok z = true) (rowids t).

(** What a parameter set of an INSERT says about the row it produced. *)
Definition stored_from (args : tuple) (row : Z * string) : Prop :=
  match args with
  | [PyInt id; PyStr content] => row = (id, content)
  | [PyStr content] => snd row = content
  | _ => False
  end.

(** What a document says about the row stored for it: its text, under its
    identifier when it came with one. *)
Definition stored_as (d : document) (row : Z * string) : Prop :=
  snd row = snd d /\ forall id, fst d = Some id -> fst row = id.

(** The highlight column a search asks for, if any. *)
Definition hl_of (kw : search_options) : option (string * string) :=
  if highlight kw then Some (hl_prefix kw, hl_suffix kw) else None.

(** The call [search] makes on the connection. *)
Definition search_call (query : string) (kw : search_options) : call :=
  if highlight kw
  then CallExecute SelectHighlightMatch
                   [PyStr (hl_prefix kw); PyStr (hl_suffix kw); PyStr query]
  else CallExecute SelectMatch [PyStr query].

(** The statement add_documents picks for a batch, from its first entry. *)
Definition batch_statement (docs : list document) : statement :=
  match docs with
  | (Some _, _) :: _ => InsertRowidContent
  | _ => InsertContent
  end.

(** A batch in which every document comes with its identifier. *)
Definition with_ids (given : table) : list document :=
  map (fun r => (Some (fst r), snd r)) given.

(** A batch in which no document does. *)
Definition without_ids (texts : list string) : list document :=
  map (fun s => (None, s)) texts.

(** ** The failures the specification names *)

(** The kinds of failure the specification names. *)
Inductive spec_error : Type :=
| EngineUnavailable
| InvalidQueryConstruction
| QueryGrammarRejected
| StoreClosed
| DuplicateIdentifier
| Unnamed.

(** The kind each exception of the code stands for.  The wrapper has no
    exception of its own for a query it refuses to build, so nothing is
    sent to InvalidQueryConstruction. *)
Definition classify (e : exn) : spec_error :=
  match e with
  | RuntimeError => EngineUnavailable
  | OperationalError QuerySyntax => QueryGrammarRejected
  | ProgrammingError ClosedDatabase => StoreClosed
  | IntegrityError => DuplicateIdentifier
  | _ => Unnamed
  end.

(** ** Operations of a store *)

(** The operations of a store. *)
Inductive operation : Type :=
| AddDocument (content : string) (doc_id : option Z)
| AddDocuments (docs : list document)
| Search (query : string) (kw : search_options)
| SearchPhrase (phrase : string) (kw : search_options)
| SearchPrefix (prefix : string) (kw : search_options)
| SearchAnd (terms : terms_arg) (kw : search_options)
| SearchOr (terms : terms_arg) (kw : search_options)
| SearchNot (include_term exclude_term : string) (kw : search_options)
| SearchNear (terms : terms_arg) (max_distance : Z) (kw : search_options).

(** Calling one: the rows of a search, [None] from the two that insert. *)
Definition perform (eng : Engine) (o : operation) : M (option (list tuple)) :=
  match o with
  | AddDocument content doc_id => add_document eng content doc_id ;;; ret None
  | AddDocuments docs => add_documents eng docs ;;; ret None
  | Search query kw => rs <- search eng query kw ;; ret (Some rs)
  | SearchPhrase phrase kw => rs <- search_phrase eng phrase kw ;; ret (Some rs)
  | SearchPrefix prefix kw => rs <- search_prefix eng prefix kw ;; ret (Some rs)
  | SearchAnd terms kw => rs <- search_and eng terms kw ;; ret (Some rs)
  | SearchOr terms kw => rs <- search_or eng terms kw ;; ret (Some rs)
  | SearchNot i x kw => rs <- search_not eng i x kw ;; ret (Some rs)
  | SearchNear terms d kw => rs <- search_near eng terms d kw ;; ret (Some rs)
  end.

(** Calling several in a row, whatever each of them returns or raises. *)
Fixpoint perform_all (eng : Engine) (os : list operation) (c : Connection)
  : Connection :=
  match os with
  | [] => c
  | o :: rest => perform_all eng rest (snd (perform eng o c))
  end.

(** The stores a program can hold: one that its constructor returned, and
    whatever the operations and close() make of it. *)
Inductive reachable (eng : Engine) : Connection -> Prop :=
| reach_new (documents : option (list document)) (c : Connection) :
    new_db eng documents = (Ok tt, c) -> reachable eng c
| reach_perform (o : operation) (c : Connection) :
    reachable eng c -> reachable eng (snd (perform eng o c))
| reach_close (c : Connection) :
    reachable eng c -> reachable eng (snd (close c)).

(** The close() calls among the calls made on a connection. *)
Definition close_calls (l : list call) : nat :=
  List.length (filter (fun k => match k with CallClose => true | _ => false end) l).

(** ** The string token of the query grammar *)

(** The quote character of the grammar. *)
Definition is_dquote (a : ascii) : bool := Ascii.eqb a dquote.

(** The string token of FTS5's query grammar, read from just after its
    opening quote: it runs to the first quote that is not doubled, a doubled
    quote standing for one quote of the phrase.  The result is the phrase
    and what follows the token; there is none when the string does not end. *)
Fixpoint string_token (s : string) : option (string * string) :=
  match s with
  | EmptyString => None
  | String a rest =>
      if is_dquote a then
        match rest with
        | String b rest' =>
            if is_dquote b then
              match string_token rest' with
              | Some (p, r) => Some (String dquote p, r)
              | None => None
              end
            else Some (EmptyString, rest)
        | EmptyString => Some (EmptyString, EmptyString)
        end
      else
        match string_token rest with
        | Some (p, r) => Some (String a p, r)
        | None => None
        end
  end.

(** A query read as one string token from its first character on. *)
Definition phrase_token (query : string) : option (string * string) :=
  match query with
  | String a rest => if is_dquote a then string_token rest else None
  | EmptyString => None
  end.

(** Every quote of the text is one of a doubled pair: the text is written
    the way the grammar wants the inside of a string. *)
Fixpoint escaped (s : string) : bool :=
  match s with
  | EmptyString => true
  | String a rest =>
      if is_dquote a then
        match rest with
        | String b rest' => is_dquote b && escaped rest'
        | EmptyString => false
        end
      else escaped rest
  end.

(** The token read from a text followed by the closing quote takes all of
    it exactly when the text is escaped. *)
Definition closes_cleanly (text : string) : Prop :=
  if escaped text
  then exists p, string_token (text ++ String dquote "") = Some (p, "")
  else forall p, string_token (text ++ String dquote "") <> Some (p, "").

(** A text with one double quote in it, before its last word. *)
Definition quoted_text : string := "say " ++ String dquote "hi".

(** Whether every string of a query ends: the tokenizer's pass over the
    quotes of the query, from outside a string or from inside one.  Outside,
    a quote opens a string; inside, a doubled quote stays inside and a
    single one closes it. *)
Fixpoint terminated_from (inside : bool) (s : string) : bool :=
  match s with
  | EmptyString => negb inside
  | String a rest =>
      if is_dquote a then
        if inside then
          match rest with
          | String b rest' =>
              if is_dquote b then terminated_from true rest'
              else terminated_from false rest
          | EmptyString => true
          end
        else terminated_from true rest
      else terminated_from inside rest
  end.

Definition terminated (query : string) : bool := terminated_from false query.

(** An engine to run quoted examples with: it rejects the empty expression
    and every expression with a string that does not end, and otherwise
    matches like [demo_engine]. *)
Definition token_engine : Engine :=
  mkEngine true
           (fun q => match q with
                     | EmptyString => None
                     | _ => if terminated q then Some (contains q) else None
                     end)
           (fun _ o c content => (o ++ content ++ c)%string)
           (fun _ => None).

(** [FullTextSearchDB()] on that engine. *)
Definition token_store : Connection := snd (new_db token_engine None).

(** The text made of a, a double quote, OR between spaces, a double quote
    and b. *)
Definition or_text : string := "a" ++ String dquote (" OR " ++ String dquote "b").

(** ** Notions the further statements use *)

(** An engine whose SQLite build has no FTS5. *)
Definition bare_engine : Engine :=
  mkEngine false (fun _ => None) (fun _ _ _ content => content) (fun _ => None).

(** The connection of a store whose constructor has created the table and
    has not inserted yet. *)
Definition created_store : Connection :=
  set_rows []
           (record_call (CallExecute CreateDocuments [])
                        (record_call CallEnableLoadExtension connect)).

(** A caller's loop over a batch:
    [for doc_id, content in docs: db.add_document(content, doc_id)]. *)
Fixpoint add_each (eng : Engine) (docs : list document) : M unit :=
  match docs with
  | [] => ret tt
  | d :: rest => add_document eng (snd d) (fst d) ;;; add_each eng rest
  end.

(** Whether a document comes with its identifier. *)
Definition has_id (d : document) : bool :=
  match fst d with
  | Some _ => true
  | None => false
  end.

(** The operations that only search. *)
Definition is_search (o : operation) : bool :=
  match o with
  | AddDocument _ _ | AddDocuments _ => false
  | _ => true
  end.

(** The first field of a result row, [row[0]], and its last, [row[-1]]. *)
Definition row_id (row : tuple) : option pyval := hd_error row.

Definition row_content (row : tuple) : option pyval := hd_error (rev row).

(** The row a search gives for a stored document. *)
Definition result_row (eng : Engine) (query : string) (kw : search_options)
           (r : Z * string) : tuple :=
  if highlight kw
  then [PyInt (fst r);
        PyStr (fts5_highlight eng query (hl_prefix kw) (hl_suffix kw) (snd r));
        PyStr (snd r)]
  else [PyInt (fst r); PyStr (snd r)].

(** The exceptions an INSERT of the wrapper can end in. *)
Definition insert_error (e : exn) : Prop :=
  (exists uses supplied, e = ProgrammingError (IncorrectBindings uses supplied)) \/
  e = OverflowError \/
  e = IntegrityError \/
  e = OperationalError DatabaseFull.

(** ** Facts about the table *)

Lemma store_ok_nil : store_ok [].
Proof. split; constructor. Qed.

Lemma insert_row_perm (r : Z * string) (t : table) :
  Permutation (insert_row r t) (r :: t).
Proof.
  induction t as [|r' t IH]; simpl.
  - apply Permutation_refl.
  - destruct (fst r <? fst r').
    + apply Permutation_refl.
    + apply perm_trans with (r' :: r :: t).
      * apply perm_skip, IH.
      * apply perm_swap.
Qed.

Lemma rowids_insert_row (r : Z * string) (t : table) :
  Permutation (rowids (insert_row r t)) (fst r :: rowids t).
Proof.
  unfold rowids. change (fst r :: map fst t) with (map fst (r :: t)).
  apply Permutation_map, insert_row_perm.
Qed.

Lemma has_rowid_In (id : Z) (t : table) :
  has_rowid id t = true <-> In id (rowids t).
Proof.
  unfold has_rowid, rowids. rewrite existsb_exists, in_map_iff.
  split; intros [r [H1 H2]].
  - exists r. apply Z.eqb_eq in H2. auto.
  - exists r. split; [assumption | apply Z.eqb_eq; assumption].
Qed.

Lemma has_rowid_false (id : Z) (t : table) :
  has_rowid id t = false <-> ~ In id (rowids t).
Proof.
  rewrite <- has_rowid_In. destruct (has_rowid id t); split; intro H;
    congruence.
Qed.

Lemma store_ok_insert (id : Z) (content : string) (t : table) :
  store_ok t -> ~ In id (rowids t) -> int64_ok id = true ->
  store_ok (insert_row (id, content) t).
Proof.
  intros [Hnd Hr] Hfresh Hid.
  pose proof (rowids_insert_row (id, content) t) as HP. simpl in HP.
  split.
  - apply (Permutation_NoDup (Permutation_sym HP)).
    constructor; assumption.
  - apply (Permutation_Forall (Permutation_sym HP)).
    constructor; assumption.
Qed.

Lemma max_rowid_cons (r : Z * string) (t : table) :
  max_rowid (r :: t) =
  match max_rowid t with
  | None => Some (fst r)
  | Some m => Some (Z.max (fst r) m)
  end.
Proof. reflexivity. Qed.

Lemma max_rowid_none (t : table) : max_rowid t = None -> t = [].
Proof.
  destruct t as [|r t]; [reflexivity|]. rewrite max_rowid_cons.
  destruct (max_rowid t); discriminate.
Qed.

Lemma max_rowid_bound (t : table) (m : Z) :
  max_rowid t = Some m ->
  In m (rowids t) /\ forall i, In i (rowids t) -> i <= m.
Proof.
  revert m. induction t as [|r t IH]; intros m H; [discriminate|].
  rewrite max_rowid_cons in H.
  destruct (max_rowid t) as [m'|] eqn:E.
  - destruct (IH m' eq_refl) as [Hin Hle]. inversion H; subst m. split.
    + simpl. destruct (Z.max_spec (fst r) m') as [[_ ->]|[_ ->]]; auto.
    + intros i [<-|Hi]; [lia|]. specialize (Hle i Hi). lia.
  - apply max_rowid_none in E. subst t. inversion H; subst m. simpl. split.
    + auto.
    + intros i [<-|[]]. lia.
Qed.

Lemma int64_ok_spec (z : Z) :
  int64_ok z = true <-> INT64_MIN <= z <= INT64_MAX.
Proof.
  unfold int64_ok. rewrite andb_true_iff, !Z.leb_le. tauto.
Qed.

Section Rowids.

Variable eng : Engine.

(** A rowid chosen by the table is a 64-bit one that no row has. *)
Lemma new_rowid_fresh (t : table) (id : Z) :
  Forall (fun z => int64_ok z = true) (rowids t) ->
  new_rowid eng t = Some id ->
  ~ In id (rowids t) /\ int64_ok id = true.
Proof.
  intros Hr H. unfold new_rowid in H.
  destruct (max_rowid t) as [m|] eqn:E.
  - destruct (max_rowid_bound t m E) as [Hin Hle].
    destruct (m <? INT64_MAX) eqn:Hlt.
    + inversion H; subst id. apply Z.ltb_lt in Hlt. split.
      * intro Hc. specialize (Hle _ Hc). lia.
      * rewrite Forall_forall in Hr. specialize (Hr m Hin).
        apply int64_ok_spec in Hr. apply int64_ok_spec. lia.
    + destruct (fts5_random_rowid eng (rowids t)) as [r|]; [|discriminate].
      destruct (int64_ok r && negb (has_rowid r t)) eqn:Hc; [|discriminate].
      inversion H; subst id. apply andb_true_iff in Hc. destruct Hc as [H1 H2].
      split; [|assumption]. apply has_rowid_false.
      destruct (has_rowid r t); [discriminate|reflexivity].
  - inversion H; subst id. apply max_rowid_none in E. subst t.
    split; [intros []|reflexivity].
Qed.

End Rowids.

(** ** Facts about the connection *)

Ltac split_all := repeat match goal with |- _ /\ _ => split end.

Ltac run_monad :=
  unfold bind, ret, raise, called, check_connection, begin_if_dml, bound in *;
  simpl in *.

Section ConnectionFacts.

Variable eng : Engine.

Lemma bind_parameters_ok (st : statement) (args : tuple) :
  bind_parameters st args = Ok tt ->
  List.length args = placeholders st /\
  forall z, In (PyInt z) args -> int64_ok z = true.
Proof.
  unfold bind_parameters.
  destruct (Nat.eqb (List.length args) (placeholders st)) eqn:E; simpl;
    [|discriminate].
  destruct (forallb _ args) eqn:F; [|discriminate]. intros _.
  split; [apply Nat.eqb_eq, E|].
  intros z Hz. rewrite forallb_forall in F. apply (F _ Hz).
Qed.

(** An INSERT either fails and leaves the connection as it was, or adds
    exactly one row under a rowid that was free. *)
Lemma step_insert (st : statement) (args : tuple) (c c' : Connection)
      (r : outcome (list tuple)) :
  is_dml st = true ->
  step eng st args c = (r, c') ->
  (exists e, r = Raise e /\ c' = c) \/
  (exists id content,
      r = Ok [] /\
      c' = set_rows (insert_row (id, content) (rows c)) c /\
      has_rowid id (rows c) = false /\
      stored_from args (id, content) /\
      (In (PyInt id) args \/ new_rowid eng (rows c) = Some id)).
Proof.
  intros Hdml H. destruct st; try discriminate Hdml; simpl in H.
  - destruct args as [|[id|s] [|[z|content] [|v args]]];
      try (inversion H; subst; left; eexists; split; reflexivity).
    destruct (has_rowid id (rows c)) eqn:Hh; inversion H; subst.
    + left. eexists; split; reflexivity.
    + right. exists id, content. simpl. auto 10.
  - destruct args as [|[z|content] [|v args]];
      try (inversion H; subst; left; eexists; split; reflexivity).
    destruct (new_rowid eng (rows c)) as [id|] eqn:Hn; inversion H; subst.
    + right. exists id, content. simpl. repeat split; auto.
      destruct (has_rowid id (rows c)) eqn:Hh; [|reflexivity].
      exfalso. apply has_rowid_In in Hh.
      unfold new_rowid in Hn.
      destruct (max_rowid (rows c)) as [m|] eqn:E.
      * destruct (max_rowid_bound _ _ E) as [_ Hle].
        destruct (m <? INT64_MAX) eqn:Hlt.
        -- inversion Hn; subst id. specialize (Hle _ Hh). lia.
        -- destruct (fts5_random_rowid eng (rowids (rows c))) as [x|];
             [|discriminate].
           destruct (int64_ok x && negb (has_rowid x (rows c))) eqn:Hc;
             [|discriminate].
           inversion Hn; subst x. apply andb_true_iff in Hc.
           destruct Hc as [_ Hc]. apply has_rowid_In in Hh.
           rewrite Hh in Hc. discriminate.
      * apply max_rowid_none in E. rewrite E in Hh. destruct Hh.
    + left. eexists; split; reflexivity.
Qed.

(** A bound INSERT keeps the table well formed. *)
Lemma step_insert_ok (st : statement) (args : tuple) (c c' : Connection)
      (r : outcome (list tuple)) :
  is_dml st = true ->
  bind_parameters st args = Ok tt ->
  store_ok (rows c) ->
  step eng st args c = (r, c') ->
  store_ok (rows c').
Proof.
  intros Hdml Hb Hok H.
  destruct (step_insert _ _ _ _ _ Hdml H)
    as [[e [_ ->]]|[id [content [_ [-> [Hfree [_ Hid]]]]]]]; [assumption|].
  simpl. apply store_ok_insert; [assumption| |].
  - apply has_rowid_false, Hfree.
  - destruct Hid as [Hin|Hn].
    + apply (proj2 (bind_parameters_ok _ _ Hb) _ Hin).
    + apply (new_rowid_fresh eng _ _ (proj2 Hok) Hn).
Qed.

(** The loop of executemany: some first parameter sets became rows, in
    order; on success all of them, on failure strictly fewer. *)
Lemma run_many_spec (st : statement) :
  is_dml st = true ->
  forall (argss : list tuple) (c c' : Connection) (r : outcome unit),
    store_ok (rows c) ->
    run_many eng st argss c = (r, c') ->
    exists new : table,
      Permutation (rows c') (new ++ rows c) /\
      store_ok (rows c') /\
      closed c' = closed c /\
      calls c' = calls c /\
      Forall2 stored_from (firstn (List.length new) argss) new /\
      match r with
      | Ok _ => List.length new = List.length argss
      | Raise _ => (List.length new < List.length argss)%nat
      end.
Proof.
  intros Hdml. induction argss as [|args rest IH]; intros c c' r Hok H.
  - inversion H; subst. exists []. simpl. split_all; auto.
  - simpl in H. unfold bind at 1 in H. unfold bound in H.
    destruct (bind_parameters st args) as [[]|e] eqn:Hb.
    + unfold bind at 1 in H.
      destruct (step eng st args c) as [[rs|e] c1] eqn:Hs.
      * pose proof (step_insert_ok _ _ _ _ _ Hdml Hb Hok Hs) as Hok1.
        destruct (step_insert _ _ _ _ _ Hdml Hs)
          as [[e [He _]]|[id [content [_ [Hc1 [_ [Hfrom _]]]]]]];
          [discriminate|].
        destruct (IH _ _ _ Hok1 H) as [new [HP [Hok' [Hcl [Hca [HF Hlen]]]]]].
        exists ((id, content) :: new). subst c1. simpl in *.
        split_all; auto.
        -- apply (perm_trans HP).
           apply perm_trans with (new ++ (id, content) :: rows c).
           ++ apply Permutation_app_head, insert_row_perm.
           ++ apply Permutation_sym, Permutation_middle.
        -- destruct r; lia.
      * inversion H; subst.
        destruct (step_insert _ _ _ _ _ Hdml Hs)
          as [[e' [_ ->]]|[id [content [He _]]]]; [|discriminate].
        exists []. simpl. split_all; auto; lia.
    + inversion H; subst. exists []. simpl. split_all; auto; lia.
Qed.

End ConnectionFacts.

(** ** Facts about the wrapper *)

Lemma batch_statement_dml (docs : list document) :
  is_dml (batch_statement docs) = true.
Proof. destruct docs as [|[[id|] s] docs]; reflexivity. Qed.

Section WrapperFacts.

Variable eng : Engine.

(** On an open store a search runs its query on the rows of the table. *)
Lemma search_open (query : string) (kw : search_options) (c : Connection) :
  closed c = false ->
  search eng query kw c =
  (select_rows eng (hl_of kw) query (rows c), record_call (search_call query kw) c).
Proof.
  intros Hopen. unfold search, search_call, hl_of, conn_execute.
  destruct (highlight kw); run_monad; rewrite Hopen; simpl; reflexivity.
Qed.

(** On a closed store a search raises before anything runs. *)
Lemma search_closed (query : string) (kw : search_options) (c : Connection) :
  closed c = true ->
  search eng query kw c =
  (Raise (ProgrammingError ClosedDatabase), record_call (search_call query kw) c).
Proof.
  intros Hcl. unfold search, search_call, conn_execute.
  destruct (highlight kw); run_monad; rewrite Hcl; reflexivity.
Qed.

Lemma add_documents_eq (docs : list document) :
  add_documents eng docs =
  (conn_executemany eng (batch_statement docs) (build_params docs) ;;; conn_commit).
Proof. destruct docs as [|[[id|] s] docs]; reflexivity. Qed.

(** add_documents on an open store: the loop over the parameter sets, and
    the commit when the loop got through. *)
Lemma add_documents_open (docs : list document) (c : Connection) :
  closed c = false ->
  add_documents eng docs c =
  match run_many eng (batch_statement docs) (build_params docs)
                 (begin_transaction
                    (record_call
                       (CallExecuteMany (batch_statement docs) (build_params docs)) c))
  with
  | (Ok _, c1) =>
      if closed c1
      then (Raise (ProgrammingError ClosedDatabase), record_call CallCommit c1)
      else (Ok tt, commit_transaction (record_call CallCommit c1))
  | (Raise e, c1) => (Raise e, c1)
  end.
Proof.
  intros Hopen. rewrite add_documents_eq.
  unfold conn_executemany, conn_commit, bind, called, check_connection,
    begin_if_dml.
  cbn -[run_many]. rewrite Hopen. rewrite batch_statement_dml.
  destruct (run_many eng (batch_statement docs) (build_params docs) _)
    as [[[]|e] c1]; [|reflexivity].
  destruct (closed c1); reflexivity.
Qed.

(** add_documents on a closed store raises before anything is inserted. *)
Lemma add_documents_closed (docs : list document) (c : Connection) :
  closed c = true ->
  add_documents eng docs c =
  (Raise (ProgrammingError ClosedDatabase),
   record_call (CallExecuteMany (batch_statement docs) (build_params docs)) c).
Proof.
  intros Hcl. unfold add_documents, conn_executemany.
  destruct docs as [|[[id|] s] docs]; run_monad; rewrite Hcl; reflexivity.
Qed.

(** add_document on a closed store raises before anything is inserted. *)
Lemma add_document_closed (content : string) (doc_id : option Z) (c : Connection) :
  closed c = true ->
  exists c', add_document eng content doc_id c =
             (Raise (ProgrammingError ClosedDatabase), c') /\
             closed c' = true /\ rows c' = rows c.
Proof.
  intros Hcl. unfold add_document, conn_execute.
  destruct doc_id; run_monad; rewrite Hcl; eexists; split_all; reflexivity || auto.
Qed.

Lemma firstn_build_params (n : nat) (docs : list document) :
  firstn n (build_params docs) = build_params (firstn n docs).
Proof. unfold build_params. apply firstn_map. Qed.

Lemma stored_from_as (docs : list document) (new : table) :
  Forall2 stored_from (build_params docs) new -> Forall2 stored_as docs new.
Proof.
  revert new. induction docs as [|[[id|] s] docs IH]; intros new H;
    inversion H; subst; constructor; auto.
  - simpl in *. subst. split; simpl; [reflexivity|]. congruence.
  - simpl in *. split; simpl; [assumption|]. discriminate.
Qed.

End WrapperFacts.

(** ** Inserting one document *)

Section AddDocument.

Variable eng : Engine.

(** add_document on an open store: one INSERT, and the commit when the
    INSERT got through. *)
Lemma add_document_open (content : string) (doc_id : option Z) (c : Connection) :
  closed c = false ->
  let st := match doc_id with Some _ => InsertRowidContent | None => InsertContent end in
  let args := match doc_id with
              | Some id => [PyInt id; PyStr content]
              | None => [PyStr content]
              end in
  let c0 := begin_transaction (record_call (CallExecute st args) c) in
  add_document eng content doc_id c =
  match bind_parameters st args with
  | Raise e => (Raise e, c0)
  | Ok _ =>
      match step eng st args c0 with
      | (Raise e, c1) => (Raise e, c1)
      | (Ok _, c1) =>
          if closed c1
          then (Raise (ProgrammingError ClosedDatabase), record_call CallCommit c1)
          else (Ok tt, commit_transaction (record_call CallCommit c1))
      end
  end.
Proof.
  intros Hopen st args c0. subst st args c0.
  unfold add_document, conn_execute, conn_commit, bind, ret, called,
    check_connection, begin_if_dml, bound.
  destruct doc_id as [id|]; cbn -[step bind_parameters]; rewrite Hopen;
    match goal with
    | |- context [bind_parameters ?st ?a] => destruct (bind_parameters st a) as [[]|e]
    end; try reflexivity;
    match goal with
    | |- context [step ?g ?st ?a ?c0] => destruct (step g st a c0) as [[rs|x] c1]
    end; try reflexivity;
    destruct (closed c1); reflexivity.
Qed.

(** add_document keeps the table well formed, whatever it is given. *)
Lemma add_document_store_ok (content : string) (doc_id : option Z) (c : Connection) :
  store_ok (rows c) ->
  store_ok (rows (snd (add_document eng content doc_id c))).
Proof.
  intros Hok. destruct (closed c) eqn:Hcl.
  - destruct (add_document_closed eng content doc_id c Hcl) as [c' [-> [_ Hr]]].
    simpl. rewrite Hr. assumption.
  - rewrite (add_document_open content doc_id c Hcl).
    set (st := match doc_id with Some _ => InsertRowidContent | None => InsertContent end).
    set (args := match doc_id with
                 | Some id => [PyInt id; PyStr content]
                 | None => [PyStr content]
                 end).
    set (c0 := begin_transaction (record_call (CallExecute st args) c)).
    assert (Hdml : is_dml st = true) by (subst st; destruct doc_id; reflexivity).
    destruct (bind_parameters st args) as [[]|e] eqn:Hb; [|exact Hok].
    destruct (step eng st args c0) as [r c1] eqn:Hs.
    assert (Hok1 : store_ok (rows c1))
      by (apply (step_insert_ok eng st args c0 c1 r Hdml Hb); [exact Hok|exact Hs]).
    destruct r; [|exact Hok1].
    destruct (closed c1); exact Hok1.
Qed.

End AddDocument.

(** C1. Inserting under an identifier that is already present never adds a
    second row under it: add_document keeps identifiers unique in every
    store, and for an identifier the store already holds it raises and
    leaves the rows as they were; on an open store what it raises is
    IntegrityError, the rejection of a duplicate identifier. *)
Theorem add_document_keeps_ids_unique
        (eng : Engine) (c : Connection) (content : string) :
  store_ok (rows c) ->
  (forall doc_id : option Z,
      store_ok (rows (snd (add_document eng content doc_id c)))) /\
  (forall id : Z,
      In id (rowids (rows c)) ->
      rows (snd (add_document eng content (Some id) c)) = rows c /\
      exists e : exn,
        fst (add_document eng content (Some id) c) = Raise e /\
        (closed c = false -> e = IntegrityError)).
Proof.
  intros Hok. split.
  - intros doc_id. apply add_document_store_ok, Hok.
  - intros id Hin. destruct (closed c) eqn:Hcl.
    + destruct (add_document_closed eng content (Some id) c Hcl) as [c' [-> [_ Hr]]].
      simpl. split; [exact Hr|]. eexists. split; [reflexivity|discriminate].
    + rewrite (add_document_open eng content (Some id) c Hcl).
      assert (Hid : int64_ok id = true).
      { destruct Hok as [_ Hr]. rewrite Forall_forall in Hr. apply Hr, Hin. }
      unfold bind_parameters. cbn [List.length placeholders Nat.eqb negb forallb].
      rewrite Hid. cbn [andb step begin_transaction record_call rows].
      apply has_rowid_In in Hin. rewrite Hin. simpl.
      split; [reflexivity|]. exists IntegrityError. split; reflexivity.
Qed.

(** A store holding document 7, and a second insert under 7. *)
Lemma add_document_keeps_ids_unique_witness :
  fst (add_document demo_engine "again" (Some 7) store_of_seven) = Raise IntegrityError /\
  rows (snd (add_document demo_engine "again" (Some 7) store_of_seven)) = [(7, "seven")].
Proof.
  assert (Hok : store_ok (rows store_of_seven)).
  { split; repeat constructor; simpl; tauto. }
  destruct (add_document_keeps_ids_unique demo_engine store_of_seven "again" Hok)
    as [_ H].
  destruct (H 7) as [Hr [e [He Hi]]].
  - simpl. left. reflexivity.
  - split.
    + rewrite He. rewrite (Hi eq_refl). reflexivity.
    + exact Hr.
Defined.

(** ** Inserting a batch *)

Section AddDocuments.

Variable eng : Engine.

(** What add_documents leaves behind on an open store: rows for the first
    documents of the batch, in order, all of them exactly when it returns;
    and the store stays open. *)
Lemma add_documents_spec (docs : list document) (c c' : Connection)
      (r : outcome unit) :
  closed c = false ->
  store_ok (rows c) ->
  add_documents eng docs c = (r, c') ->
  exists new : table,
    Permutation (rows c') (new ++ rows c) /\
    store_ok (rows c') /\
    closed c' = false /\
    Forall2 stored_as (firstn (List.length new) docs) new /\
    match r with
    | Ok _ => List.length new = List.length docs
    | Raise _ => (List.length new < List.length docs)%nat
    end.
Proof.
  intros Hopen Hok H. rewrite (add_documents_open eng docs c Hopen) in H.
  set (c0 := begin_transaction
               (record_call
                  (CallExecuteMany (batch_statement docs) (build_params docs)) c)) in H.
  destruct (run_many eng (batch_statement docs) (build_params docs) c0)
    as [r1 c1] eqn:Hrun.
  destruct (run_many_spec eng _ (batch_statement_dml docs) _ c0 c1 r1 Hok Hrun)
    as [new [HP [Hok1 [Hcl [_ [HF Hlen]]]]]].
  assert (Hlen' : List.length (build_params docs) = List.length docs)
    by (unfold build_params; apply length_map).
  rewrite firstn_build_params in HF. apply stored_from_as in HF.
  simpl in Hcl. rewrite Hopen in Hcl.
  exists new. destruct r1 as [[]|e].
  - rewrite Hcl in H. inversion H; subst r c'. simpl.
    split_all; auto. congruence.
  - inversion H; subst r c'. split_all; auto. congruence.
Qed.

End AddDocuments.

(** The loop of executemany touches nothing but the rows. *)
Lemma run_many_frame (eng : Engine) (st : statement) :
  is_dml st = true ->
  forall (argss : list tuple) (c c' : Connection) (r : outcome unit),
    run_many eng st argss c = (r, c') ->
    closed c' = closed c /\
    durable c' = durable c /\
    in_transaction c' = in_transaction c /\
    calls c' = calls c.
Proof.
  intros Hdml. induction argss as [|args rest IH]; intros c c' r H.
  - inversion H; subst. auto.
  - simpl in H. unfold bind at 1 in H. unfold bound in H.
    destruct (bind_parameters st args) as [[]|e].
    + unfold bind at 1 in H.
      destruct (step eng st args c) as [[rs|e] c1] eqn:Hs.
      * destruct (step_insert eng _ _ _ _ _ Hdml Hs)
          as [[e [He _]]|[id [content [_ [Hc1 _]]]]]; [discriminate|].
        destruct (IH _ _ _ H) as [H1 [H2 [H3 H4]]]. subst c1. simpl in *. auto.
      * inversion H; subst.
        destruct (step_insert eng _ _ _ _ _ Hdml Hs)
          as [[e' [_ ->]]|[id [content [He _]]]]; [auto|discriminate].
    + inversion H; subst. auto.
Qed.

(** Where the loop of executemany stops when it raises: at the first
    parameter set that does not bind, or binds and does not run, on the
    rows the sets before it have left. *)
Lemma run_many_stops (eng : Engine) (st : statement) :
  is_dml st = true ->
  forall (argss : list tuple) (c c' : Connection) (e : exn),
    run_many eng st argss c = (Raise e, c') ->
    exists (new : table) (args : tuple),
      nth_error argss (List.length new) = Some args /\
      Permutation (rows c') (new ++ rows c) /\
      Forall2 stored_from (firstn (List.length new) argss) new /\
      (bind_parameters st args = Raise e \/
       bind_parameters st args = Ok tt /\ step eng st args c' = (Raise e, c')).
Proof.
  intros Hdml. induction argss as [|args rest IH]; intros c c' e H.
  - discriminate H.
  - simpl in H. unfold bind at 1 in H. unfold bound in H.
    destruct (bind_parameters st args) as [[]|e0] eqn:Hb.
    + unfold bind at 1 in H.
      destruct (step eng st args c) as [[rs|e1] c1] eqn:Hs.
      * destruct (step_insert eng _ _ _ _ _ Hdml Hs)
          as [[e2 [He _]]|[id [content [_ [Hc1 [_ [Hfrom _]]]]]]];
          [discriminate He|].
        destruct (IH _ _ _ H) as [new [args' [Hn [HP [HF Hfail]]]]].
        exists ((id, content) :: new), args'. subst c1. simpl in *.
        split_all; auto.
        apply (perm_trans HP).
        apply perm_trans with (new ++ (id, content) :: rows c).
        -- apply Permutation_app_head, insert_row_perm.
        -- apply Permutation_sym, Permutation_middle.
      * inversion H; subst e1 c1.
        destruct (step_insert eng _ _ _ _ _ Hdml Hs)
          as [[e2 [_ Hc]]|[id [content [He _]]]]; [|discriminate He].
        subst c'. exists [], args. simpl. split_all; auto.
    + inversion H; subst e0 c'. exists [], args. simpl. split_all; auto.
Qed.

Lemma nth_error_build_params (docs : list document) (k : nat) (args : tuple) :
  nth_error (build_params docs) k = Some args ->
  exists d : document, nth_error docs k = Some d /\ build_params [d] = [args].
Proof.
  revert k. induction docs as [|d docs IH]; intros k H.
  - destruct k; discriminate H.
  - destruct k as [|k].
    + simpl in H. inversion H. exists d. split; reflexivity.
    + simpl in H. destruct (IH k H) as [d' [Hd Hp]]. exists d'.
      split; [exact Hd|exact Hp].
Qed.

(** C2, as the code has it.  add_documents is not all-or-nothing: when it
    returns, every document of the batch is stored; when it raises, it
    raises at one document of the batch, the first whose INSERT does not
    bind or does not run, and exactly the documents before that one are
    stored, the failing one and those after it are not; either way each
    later search on the store selects from exactly those rows. *)
Theorem add_documents_keeps_what_ran
        (eng : Engine) (docs : list document) (c c' : Connection)
        (r : outcome unit) :
  closed c = false ->
  store_ok (rows c) ->
  add_documents eng docs c = (r, c') ->
  exists new : table,
    Permutation (rows c') (new ++ rows c) /\
    Forall2 stored_as (firstn (List.length new) docs) new /\
    match r with
    | Ok _ => List.length new = List.length docs
    | Raise e =>
        exists (d : document) (args : tuple),
          nth_error docs (List.length new) = Some d /\
          build_params [d] = [args] /\
          (bind_parameters (batch_statement docs) args = Raise e \/
           bind_parameters (batch_statement docs) args = Ok tt /\
           fst (step eng (batch_statement docs) args c') = Raise e)
    end /\
    forall (query : string) (kw : search_options),
      fst (search eng query kw c') = select_rows eng (hl_of kw) query (rows c').
Proof.
  intros Hopen Hok H.
  assert (Hsearch : closed c' = false ->
                    forall query kw,
                      fst (search eng query kw c')
                      = select_rows eng (hl_of kw) query (rows c')).
  { intros Hcl query kw. rewrite (search_open eng query kw c' Hcl). reflexivity. }
  destruct r as [[]|e].
  - destruct (add_documents_spec eng docs c c' (Ok tt) Hopen Hok H)
      as [new [HP [_ [Hcl [HF Hlen]]]]].
    exists new. split_all; auto.
  - rewrite (add_documents_open eng docs c Hopen) in H.
    destruct (run_many eng (batch_statement docs) (build_params docs) _)
      as [[[]|e1] c1] eqn:Hrun.
    + destruct (run_many_frame eng _ (batch_statement_dml docs) _ _ _ _ Hrun)
        as [Hcl _].
      simpl in Hcl. rewrite Hcl, Hopen in H. discriminate H.
    + inversion H; subst e1 c1.
      destruct (run_many_frame eng _ (batch_statement_dml docs) _ _ _ _ Hrun)
        as [Hcl _].
      simpl in Hcl. rewrite Hopen in Hcl.
      destruct (run_many_stops eng _ (batch_statement_dml docs) _ _ _ _ Hrun)
        as [new [args [Hn [HP [HF Hfail]]]]].
      rewrite firstn_build_params in HF. apply stored_from_as in HF.
      destruct (nth_error_build_params docs _ args Hn) as [d [Hd Hp]].
      exists new. split_all; auto.
      exists d, args. split_all; auto.
      destruct Hfail as [Hb|[Hb Hs]]; [left; exact Hb|right].
      split; [exact Hb|]. rewrite Hs. reflexivity.
Qed.

(** The clashing batch into an empty store: the first document is stored,
    the second is the one that fails. *)
Lemma add_documents_keeps_what_ran_witness :
  exists new : table,
    Permutation (rows (snd (add_documents demo_engine clashing_batch empty_store)))
                (new ++ rows empty_store) /\
    Forall2 stored_as (firstn (List.length new) clashing_batch) new /\
    exists (d : document) (args : tuple),
      nth_error clashing_batch (List.length new) = Some d /\
      build_params [d] = [args].
Proof.
  assert (Hopen : closed empty_store = false) by reflexivity.
  assert (Hok : store_ok (rows empty_store)) by apply store_ok_nil.
  destruct (add_documents_keeps_what_ran demo_engine clashing_batch empty_store
              (snd (add_documents demo_engine clashing_batch empty_store))
              (Raise IntegrityError) Hopen Hok)
    as [new [HP [HF [[d [args [Hd [Hp _]]]] _]]]].
  - reflexivity.
  - exists new. split_all; try assumption. exists d, args. split; assumption.
Defined.

(** C2, as stated, fails: this batch raises at its second document, and the
    first one is returned by a search made afterwards. *)
Lemma add_documents_not_atomic :
  fst (add_documents demo_engine clashing_batch empty_store) = Raise IntegrityError /\
  fst (search demo_engine "alpha" default_options
              (snd (add_documents demo_engine clashing_batch empty_store)))
  = Ok [[PyInt 1; PyStr "alpha"]].
Proof. split; reflexivity. Qed.

(** ** Stores a program can hold *)

Lemma add_documents_store_ok (eng : Engine) (docs : list document) (c : Connection) :
  store_ok (rows c) ->
  store_ok (rows (snd (add_documents eng docs c))).
Proof.
  intros Hok. destruct (closed c) eqn:Hcl.
  - rewrite (add_documents_closed eng docs c Hcl). exact Hok.
  - destruct (add_documents eng docs c) as [r c'] eqn:H.
    destruct (add_documents_spec eng docs c c' r Hcl Hok H) as [_ [_ [Hok' _]]].
    exact Hok'.
Qed.

Lemma search_rows (eng : Engine) (query : string) (kw : search_options)
      (c : Connection) :
  rows (snd (search eng query kw c)) = rows c.
Proof.
  destruct (closed c) eqn:Hcl.
  - rewrite (search_closed eng query kw c Hcl). reflexivity.
  - rewrite (search_open eng query kw c Hcl). reflexivity.
Qed.

Lemma bind_ret_rows {A B : Type} (m : M A) (f : A -> B) (c : Connection) :
  rows (snd ((x <- m ;; ret (f x)) c)) = rows (snd (m c)).
Proof. unfold bind, ret. destruct (m c) as [[a|e] c']; reflexivity. Qed.

Lemma perform_store_ok (eng : Engine) (o : operation) (c : Connection) :
  store_ok (rows c) ->
  store_ok (rows (snd (perform eng o c))).
Proof.
  intros Hok. destruct o; unfold perform; rewrite bind_ret_rows;
    try (unfold search_phrase, search_prefix, search_and, search_or,
         search_not, search_near; cbv zeta; rewrite search_rows; exact Hok).
  - apply add_document_store_ok, Hok.
  - apply add_documents_store_ok, Hok.
Qed.

Lemma new_db_store_ok (eng : Engine) (documents : option (list document))
      (c : Connection) :
  new_db eng documents = (Ok tt, c) -> store_ok (rows c).
Proof.
  unfold new_db, __init__, conn_enable_load_extension, reraise_operational,
    conn_execute, connect.
  unfold bind, called, check_connection, begin_if_dml, bound, ret.
  cbn -[add_documents].
  destruct (fts5_available eng); cbn -[add_documents];
    [|intros H; discriminate H].
  intros H.
  match type of H with
  | match documents with _ => _ end ?c0 = _ =>
      assert (Hok : store_ok (rows c0)) by apply store_ok_nil;
      destruct documents as [[|d ds]|];
      try (inversion H; subst; exact Hok);
      pose proof (add_documents_store_ok eng (d :: ds) c0 Hok) as Hok';
      rewrite H in Hok'; exact Hok'
  end.
Qed.

(** Every store a program can hold has a well-formed table. *)
Lemma reachable_store_ok (eng : Engine) (c : Connection) :
  reachable eng c -> store_ok (rows c).
Proof.
  induction 1 as [documents c H|o c _ IH|c _ IH].
  - apply (new_db_store_ok eng documents c H).
  - apply perform_store_ok, IH.
  - exact IH.
Qed.

(** ** Batches of one kind *)

Lemma NoDup_app_disjoint {A} (l1 l2 : list A) :
  NoDup (l1 ++ l2) -> forall a, In a l1 -> ~ In a l2.
Proof.
  induction l1 as [|x l1 IH]; intros H a Ha; [destruct Ha|].
  simpl in H. inversion H as [|? ? Hx Hnd]; subst. destruct Ha as [->|Ha].
  - intro Hc. apply Hx. apply in_or_app. right. exact Hc.
  - apply IH; assumption.
Qed.

Lemma stored_as_with_ids (given new : table) :
  Forall2 stored_as (with_ids given) new -> new = given.
Proof.
  revert new. induction given as [|[id s] given IH]; intros new H;
    inversion H as [|d [id' s'] ? ? [Hs Hi] HF]; subst; [reflexivity|].
  simpl in *. rewrite (IH _ HF), (Hi id eq_refl), Hs. reflexivity.
Qed.

Lemma stored_as_without_ids (texts : list string) (new : table) :
  Forall2 stored_as (without_ids texts) new -> map snd new = texts.
Proof.
  revert new. induction texts as [|s texts IH]; intros new H;
    inversion H as [|d [id' s'] ? ? [Hs Hi] HF]; subst; [reflexivity|].
  simpl in *. rewrite (IH _ HF), Hs. reflexivity.
Qed.

Lemma combine_fst_snd (t : table) : combine (map fst t) (map snd t) = t.
Proof.
  induction t as [|[id s] t IH]; [reflexivity|]. simpl. rewrite IH. reflexivity.
Qed.

Section UniformBatches.

Variable eng : Engine.

(** Distinct, unused, 64-bit identifiers all get through the loop. *)
Lemma run_many_given (given : table) :
  forall c : Connection,
    NoDup (rowids given) ->
    Forall (fun z => int64_ok z = true) (rowids given) ->
    (forall i, In i (rowids given) -> ~ In i (rowids (rows c))) ->
    exists c', run_many eng InsertRowidContent (build_params (with_ids given)) c
               = (Ok tt, c').
Proof.
  induction given as [|[id s] given IH]; intros c Hnd Hr Hfresh.
  - eexists. reflexivity.
  - simpl in Hnd, Hr. inversion Hnd as [|? ? Hid Hnd']; subst.
    inversion Hr as [|? ? Hok Hr']; subst.
    assert (Hfree : has_rowid id (rows c) = false).
    { apply has_rowid_false, Hfresh. simpl. left. reflexivity. }
    cbn -[int64_ok has_rowid]. unfold bind, bound, bind_parameters.
    cbn -[int64_ok has_rowid]. rewrite Hok. cbn -[int64_ok has_rowid].
    rewrite Hfree.
    apply (IH (set_rows (insert_row (id, s) (rows c)) c) Hnd' Hr').
    intros i Hi Hc. simpl in Hc.
    apply (Permutation_in _ (rowids_insert_row (id, s) (rows c))) in Hc.
    destruct Hc as [Hc|Hc]; simpl in Hc.
    + subst i. apply Hid, Hi.
    + apply (Hfresh i); [simpl; right; exact Hi|exact Hc].
Qed.

(** With room above the largest rowid, the next one is assigned, and room
    for the rest remains. *)
Lemma new_rowid_room (t : table) (k : Z) :
  0 <= k ->
  Forall (fun i => i + (k + 1) <= INT64_MAX) (0 :: rowids t) ->
  exists n, new_rowid eng t = Some n /\ n + k <= INT64_MAX.
Proof.
  intros Hk H. inversion H as [|? ? H0 Ht]; subst. unfold new_rowid.
  destruct (max_rowid t) as [m|] eqn:E.
  - destruct (max_rowid_bound t m E) as [Hin _].
    rewrite Forall_forall in Ht. specialize (Ht m Hin).
    assert (Hlt : (m <? INT64_MAX) = true) by (apply Z.ltb_lt; lia).
    rewrite Hlt. exists (m + 1). split; [reflexivity|lia].
  - exists 1. split; [reflexivity|lia].
Qed.

(** Documents without identifiers all get through the loop while there is
    room above the largest rowid. *)
Lemma run_many_auto (texts : list string) :
  forall c : Connection,
    Forall (fun i => i + Z.of_nat (List.length texts) <= INT64_MAX)
           (0 :: rowids (rows c)) ->
    exists c', run_many eng InsertContent (build_params (without_ids texts)) c
               = (Ok tt, c').
Proof.
  induction texts as [|s texts IH]; intros c Hroom.
  - eexists. reflexivity.
  - assert (Hroom' : Forall (fun i => i + (Z.of_nat (List.length texts) + 1) <= INT64_MAX)
                            (0 :: rowids (rows c))).
    { eapply Forall_impl; [|exact Hroom]. intros i Hi. simpl in Hi.
      cbn [List.length] in Hi. lia. }
    destruct (new_rowid_room (rows c) (Z.of_nat (List.length texts))
                             (Nat2Z.is_nonneg _) Hroom') as [n [Hn Hle]].
    cbn -[new_rowid]. unfold bind, bound. cbn -[new_rowid]. rewrite Hn.
    apply (IH (set_rows (insert_row (n, s) (rows c)) c)).
    simpl. inversion Hroom as [|? ? H0 Ht]; subst.
    constructor; [cbn [List.length] in H0; lia|].
    apply (Permutation_Forall (Permutation_sym (rowids_insert_row (n, s) (rows c)))).
    constructor; [exact Hle|].
    eapply Forall_impl; [|exact Ht]. intros i Hi. simpl in Hi.
    cbn [List.length] in Hi. lia.
Qed.

(** A loop that gets through on an open store makes add_documents return. *)
Lemma add_documents_returns (docs : list document) (c c1 : Connection) :
  closed c = false ->
  store_ok (rows c) ->
  run_many eng (batch_statement docs) (build_params docs)
           (begin_transaction
              (record_call
                 (CallExecuteMany (batch_statement docs) (build_params docs)) c))
  = (Ok tt, c1) ->
  add_documents eng docs c = (Ok tt, commit_transaction (record_call CallCommit c1)).
Proof.
  intros Hopen Hok Hrun. rewrite (add_documents_open eng docs c Hopen), Hrun.
  destruct (run_many_spec eng _ (batch_statement_dml docs) _
                          (begin_transaction
                             (record_call
                                (CallExecuteMany (batch_statement docs)
                                                 (build_params docs)) c))
                          c1 (Ok tt) Hok Hrun)
    as [_ [_ [_ [Hcl _]]]].
  simpl in Hcl. rewrite Hcl, Hopen. reflexivity.
Qed.

End UniformBatches.

(** C3, as the code has it.  add_documents takes the statement from the
    first document and runs it for all of them, so it is a batch of one
    kind that it inserts in full: on an open store, documents that all
    carry identifiers (64-bit, distinct, not yet in the store) are all
    stored under those identifiers, and documents that all come without
    one are all stored under fresh, distinct identifiers while there is
    room above the largest rowid. *)
Theorem add_documents_uniform (eng : Engine) (c : Connection) :
  closed c = false ->
  store_ok (rows c) ->
  (forall given : table,
      NoDup (rowids given) ->
      Forall (fun z => int64_ok z = true) (rowids given) ->
      (forall i, In i (rowids given) -> ~ In i (rowids (rows c))) ->
      exists c' : Connection,
        add_documents eng (with_ids given) c = (Ok tt, c') /\
        Permutation (rows c') (given ++ rows c)) /\
  (forall texts : list string,
      Forall (fun i => i + Z.of_nat (List.length texts) <= INT64_MAX)
             (0 :: rowids (rows c)) ->
      exists (c' : Connection) (ids : list Z),
        add_documents eng (without_ids texts) c = (Ok tt, c') /\
        List.length ids = List.length texts /\
        NoDup ids /\
        (forall i, In i ids -> ~ In i (rowids (rows c))) /\
        Permutation (rows c') (combine ids texts ++ rows c)).
Proof.
  intros Hopen Hok. split.
  - intros given Hnd Hr Hfresh.
    set (docs := with_ids given).
    set (c0 := begin_transaction
                 (record_call
                    (CallExecuteMany (batch_statement docs) (build_params docs)) c)).
    assert (Hrun : exists c1,
               run_many eng (batch_statement docs) (build_params docs) c0 = (Ok tt, c1)).
    { subst c0 docs. destruct given as [|[id s] given'].
      - eexists. reflexivity.
      - apply (run_many_given eng ((id, s) :: given')); assumption. }
    destruct Hrun as [c1 Hrun].
    pose proof (add_documents_returns eng docs c c1 Hopen Hok Hrun) as Hadd.
    destruct (add_documents_spec eng docs c _ _ Hopen Hok Hadd)
      as [new [HP [_ [_ [HF Hlen]]]]].
    rewrite Hlen, firstn_all in HF. apply stored_as_with_ids in HF. subst new.
    eexists. split; [exact Hadd|exact HP].
  - intros texts Hroom.
    set (docs := without_ids texts).
    set (c0 := begin_transaction
                 (record_call
                    (CallExecuteMany (batch_statement docs) (build_params docs)) c)).
    assert (Hrun : exists c1,
               run_many eng (batch_statement docs) (build_params docs) c0 = (Ok tt, c1)).
    { replace (batch_statement docs) with InsertContent
        by (subst docs; destruct texts; reflexivity).
      apply run_many_auto. exact Hroom. }
    destruct Hrun as [c1 Hrun].
    pose proof (add_documents_returns eng docs c c1 Hopen Hok Hrun) as Hadd.
    destruct (add_documents_spec eng docs c _ _ Hopen Hok Hadd)
      as [new [HP [[Hnd' _] [_ [HF Hlen]]]]].
    rewrite Hlen, firstn_all in HF. apply stored_as_without_ids in HF.
    assert (Hids : NoDup (rowids new ++ rowids (rows c))).
    { unfold rowids in *. rewrite <- map_app.
      apply (Permutation_NoDup (Permutation_map fst HP)). exact Hnd'. }
    exists (commit_transaction (record_call CallCommit c1)), (rowids new).
    split_all.
    + exact Hadd.
    + unfold rowids. rewrite length_map. rewrite Hlen. subst docs.
      unfold without_ids. apply length_map.
    + apply (NoDup_app_remove_r _ _ Hids).
    + apply (NoDup_app_disjoint _ _ Hids).
    + rewrite <- HF. unfold rowids. rewrite combine_fst_snd. exact HP.
Qed.

(** Identifiers 1 and 2 into an empty store, and two documents without. *)
Lemma add_documents_uniform_witness :
  (exists c',
      add_documents demo_engine (with_ids [(1, "alpha"); (2, "beta")]) empty_store
      = (Ok tt, c') /\
      Permutation (rows c') ([(1, "alpha"); (2, "beta")] ++ rows empty_store)) /\
  (exists c' ids,
      add_documents demo_engine (without_ids ["alpha"; "beta"]) empty_store
      = (Ok tt, c') /\
      List.length ids = 2%nat /\
      Permutation (rows c') (combine ids ["alpha"; "beta"] ++ rows empty_store)).
Proof.
  assert (Hopen : closed empty_store = false) by reflexivity.
  assert (Hok : store_ok (rows empty_store)) by apply store_ok_nil.
  destruct (add_documents_uniform demo_engine empty_store Hopen Hok)
    as [Hgiven Hauto].
  split.
  - apply Hgiven.
    + repeat constructor; simpl; intuition discriminate.
    + repeat constructor.
    + intros i _ [].
  - destruct (Hauto ["alpha"; "beta"]) as [c' [ids [Ha [Hl [_ [_ HP]]]]]].
    + repeat constructor; simpl; unfold INT64_MAX; lia.
    + exists c', ids. split_all; assumption.
Defined.

(** C3, as stated, fails: the mixed batch raises at its second document,
    which is not stored. *)
Lemma add_documents_mixed_batch :
  fst (add_documents demo_engine mixed_batch empty_store)
  = Raise (ProgrammingError (IncorrectBindings 2 1)) /\
  rows (snd (add_documents demo_engine mixed_batch empty_store)) = [(1, "alpha")] /\
  fst (search demo_engine "beta" default_options
              (snd (add_documents demo_engine mixed_batch empty_store))) = Ok [].
Proof. split_all; reflexivity. Qed.

(** ** Empty term sequences *)

Lemma select_rows_raises (eng : Engine) (hl : option (string * string))
      (query : string) (t : table) (e : exn) :
  select_rows eng hl query t = Raise e -> e = OperationalError QuerySyntax.
Proof.
  unfold select_rows. destruct (fts5_query eng query); intros H; inversion H.
  reflexivity.
Qed.

(** C4, as the code has it.  No helper looks at the length of its term
    sequence: on an open store search_and and search_or run the empty
    string, and search_near runs NEAR(, max_distance), as a query on the
    engine, and the call fails only when the engine rejects that string,
    which is a rejected query grammar and not an invalid construction. *)
Theorem empty_terms_are_passed_on
        (eng : Engine) (kw : search_options) (max_distance : Z) (c : Connection) :
  closed c = false ->
  search_and eng (Seq []) kw c
  = (select_rows eng (hl_of kw) "" (rows c), record_call (search_call "" kw) c) /\
  search_or eng (Seq []) kw c
  = (select_rows eng (hl_of kw) "" (rows c), record_call (search_call "" kw) c) /\
  search_near eng (Seq []) max_distance kw c
  = (select_rows eng (hl_of kw) ("NEAR(, " ++ decimal max_distance ++ ")") (rows c),
     record_call (search_call ("NEAR(, " ++ decimal max_distance ++ ")") kw) c) /\
  forall (query : string) (e : exn),
    select_rows eng (hl_of kw) query (rows c) = Raise e ->
    classify e = QueryGrammarRejected.
Proof.
  intros Hopen. split_all.
  - apply (search_open eng "" kw c Hopen).
  - apply (search_open eng "" kw c Hopen).
  - apply (search_open eng _ kw c Hopen).
  - intros query e H. rewrite (select_rows_raises _ _ _ _ _ H). reflexivity.
Qed.

(** The three helpers on an empty store, with no terms. *)
Lemma empty_terms_are_passed_on_witness :
  search_and demo_engine (Seq []) default_options empty_store
  = (Raise (OperationalError QuerySyntax),
     record_call (CallExecute SelectMatch [PyStr ""]) empty_store) /\
  search_near demo_engine (Seq []) 10 default_options empty_store
  = (select_rows demo_engine None "NEAR(, 10)" [],
     record_call (CallExecute SelectMatch [PyStr "NEAR(, 10)"]) empty_store).
Proof.
  destruct (empty_terms_are_passed_on demo_engine default_options 10 empty_store
                                      eq_refl) as [Hand [_ [Hnear _]]].
  split; [exact Hand|exact Hnear].
Defined.

(** C4, as stated, fails: with no terms search_and does run a query on the
    engine of an open store, the empty string, and what is raised is the
    engine's rejection of it. *)
Lemma empty_terms_reach_engine :
  closed empty_store = false /\
  calls (snd (search_and demo_engine (Seq []) default_options empty_store))
  = calls empty_store ++ [CallExecute SelectMatch [PyStr ""]] /\
  fst (search_and demo_engine (Seq []) default_options empty_store)
  = Raise (OperationalError QuerySyntax) /\
  classify (OperationalError QuerySyntax) <> InvalidQueryConstruction.
Proof. split_all; try reflexivity. discriminate. Qed.

(** ** A closed store *)

Lemma perform_closed (eng : Engine) (o : operation) (c : Connection) :
  closed c = true ->
  fst (perform eng o c) = Raise (ProgrammingError ClosedDatabase) /\
  closed (snd (perform eng o c)) = true.
Proof.
  intros Hcl.
  destruct o; unfold perform, bind;
    try (unfold search_phrase, search_prefix, search_and, search_or,
         search_not, search_near; cbv zeta;
         rewrite (search_closed eng _ kw c Hcl); simpl; split; [reflexivity|exact Hcl]).
  - destruct (add_document_closed eng content doc_id c Hcl) as [c' [-> [Hc _]]].
    simpl. split; [reflexivity|exact Hc].
  - rewrite (add_documents_closed eng docs c Hcl). simpl.
    split; [reflexivity|exact Hcl].
Qed.

Lemma perform_all_closed (eng : Engine) (os : list operation) :
  forall c, closed c = true -> closed (perform_all eng os c) = true.
Proof.
  induction os as [|o rest IH]; intros c Hcl; [exact Hcl|].
  simpl. apply IH. apply (perform_closed eng o c Hcl).
Qed.

Lemma with_block_closed {A : Type} (body : M A) (c : Connection) :
  closed (snd (with_block body c)) = true.
Proof.
  unfold with_block, __enter__, __exit__, close, conn_close, ret, bind, called.
  destruct (body c) as [r c1]. reflexivity.
Qed.

(** C5. Once close() has been called on a store, by the program or by the
    end of a with block, every operation called on it afterwards, whatever
    was called in between, raises ProgrammingError for a closed database,
    the store-closed error. *)
Theorem closed_store_rejects
        (eng : Engine) (c : Connection) (between : list operation) (o : operation) :
  fst (perform eng o (perform_all eng between (snd (close c))))
  = Raise (ProgrammingError ClosedDatabase) /\
  forall (A : Type) (body : M A),
    fst (perform eng o (perform_all eng between (snd (with_block body c))))
    = Raise (ProgrammingError ClosedDatabase).
Proof.
  split.
  - apply perform_closed. apply perform_all_closed. reflexivity.
  - intros A body. apply perform_closed. apply perform_all_closed.
    apply with_block_closed.
Qed.

(** ** The with block *)

(** C6. A with block ends in exactly one close(), after the body, whether
    the body returned or raised: the block gives what the body gave, one
    close call follows the calls of the body, and the store is closed. *)
Theorem with_block_closes_once {A : Type} (body : M A) (c : Connection) :
  fst (with_block body c) = fst (body c) /\
  closed (snd (with_block body c)) = true /\
  calls (snd (with_block body c)) = calls (snd (body c)) ++ [CallClose] /\
  close_calls (calls (snd (with_block body c)))
  = S (close_calls (calls (snd (body c)))).
Proof.
  unfold with_block, __enter__, __exit__, close, conn_close, ret, bind, called.
  destruct (body c) as [r c1]. simpl. split_all; try reflexivity.
  unfold close_calls. rewrite filter_app, length_app. simpl. lia.
Qed.

(** ** Phrases *)

Lemma closes_cleanly_all (text : string) :
  closes_cleanly text /\ forall a, closes_cleanly (String a text).
Proof.
  assert (Hskip : forall a t, is_dquote a = false ->
                              closes_cleanly t -> closes_cleanly (String a t)).
  { intros a t Ha Ht. unfold closes_cleanly in *. simpl. rewrite Ha.
    destruct (escaped t).
    - destruct Ht as [p Hp]. exists (String a p). rewrite Hp. reflexivity.
    - intros p Hc.
      destruct (string_token (t ++ String dquote "")) as [[p' r]|] eqn:E;
        [|discriminate].
      inversion Hc; subst. apply (Ht p'). reflexivity. }
  induction text as [|x t [IH1 IH2]].
  - assert (H0 : closes_cleanly "").
    { unfold closes_cleanly. simpl. exists "". reflexivity. }
    split; [exact H0|]. intros a. destruct (is_dquote a) eqn:Ha.
    + unfold closes_cleanly. simpl. rewrite Ha. simpl. intros p Hc. discriminate.
    + apply Hskip; assumption.
  - split; [apply IH2|]. intros a. destruct (is_dquote a) eqn:Ha.
    + unfold closes_cleanly in *. simpl. rewrite Ha.
      destruct (is_dquote x) eqn:Hx; simpl.
      * destruct (escaped t).
        -- destruct IH1 as [p Hp]. exists (String dquote p). rewrite Hp. reflexivity.
        -- intros p Hc.
           destruct (string_token (t ++ String dquote "")) as [[p' r]|] eqn:E;
             [|discriminate].
           inversion Hc; subst. apply (IH1 p'). reflexivity.
      * intros p Hc. discriminate.
    + apply Hskip; [exact Ha|apply IH2].
Qed.

(** A text without any quote is read back as it is. *)
Lemma string_token_plain (text : string) :
  (forall a, In a (list_ascii_of_string text) -> is_dquote a = false) ->
  phrase_token (String dquote (text ++ String dquote "")) = Some (text, "").
Proof.
  simpl. induction text as [|a t IH]; intros H.
  - reflexivity.
  - simpl. rewrite (H a (or_introl eq_refl)).
    rewrite IH; [reflexivity|]. intros b Hb. apply H. right. exact Hb.
Qed.

Lemma string_token_skip (a : ascii) (s : string) :
  is_dquote a = false ->
  string_token (String a s)
  = match string_token s with
    | Some (p, r) => Some (String a p, r)
    | None => None
    end.
Proof. intros Ha. simpl. rewrite Ha. reflexivity. Qed.

Lemma terminated_from_skip (inside : bool) (a : ascii) (s : string) :
  is_dquote a = false ->
  terminated_from inside (String a s) = terminated_from inside s.
Proof. intros Ha. simpl. rewrite Ha. reflexivity. Qed.

(** A string that does not end leaves the pass inside it. *)
Lemma string_token_none_all (s : string) :
  (string_token s = None -> terminated_from true s = false) /\
  forall a, string_token (String a s) = None ->
            terminated_from true (String a s) = false.
Proof.
  induction s as [|x s [IH1 IH2]].
  - split; [reflexivity|]. intros a. simpl.
    destruct (is_dquote a); [intros H; discriminate H|reflexivity].
  - split; [apply IH2|]. intros a. destruct (is_dquote a) eqn:Ha.
    + simpl. rewrite Ha.
      destruct (is_dquote x) eqn:Hx; [|intros H; discriminate H].
      intros H. apply IH1.
      destruct (string_token s) as [[p r]|]; [discriminate H|reflexivity].
    + rewrite (string_token_skip a _ Ha), (terminated_from_skip true a _ Ha).
      intros H. apply IH2.
      destruct (string_token (String x s)) as [[p r]|]; [discriminate H|reflexivity].
Qed.

(** C7, as the code has it.  On an open store search_phrase runs, as one
    query on the engine, the text between two double quotes, unchanged,
    and gives what the engine makes of that string.  When the text holds a
    quote that is not escaped, that query is not the phrase of the text:
    a string in it does not end, or its first string ends early and text
    is left over; and for a string that does not end, an engine that
    rejects such queries makes the call raise its syntax error. *)
Theorem search_phrase_wraps_verbatim
        (eng : Engine) (text : string) (kw : search_options) (c : Connection) :
  closed c = false ->
  search_phrase eng text kw c
  = (select_rows eng (hl_of kw) (String dquote (text ++ String dquote "")) (rows c),
     record_call (search_call (String dquote (text ++ String dquote "")) kw) c) /\
  (escaped text = false ->
   terminated (String dquote (text ++ String dquote "")) = false \/
   exists p rest,
     phrase_token (String dquote (text ++ String dquote "")) = Some (p, rest) /\
     rest <> "") /\
  ((forall q, terminated q = false -> fts5_query eng q = None) ->
   terminated (String dquote (text ++ String dquote "")) = false ->
   fst (search_phrase eng text kw c) = Raise (OperationalError QuerySyntax)).
Proof.
  intros Hopen.
  assert (Hrun : search_phrase eng text kw c
                 = (select_rows eng (hl_of kw)
                                (String dquote (text ++ String dquote "")) (rows c),
                    record_call
                      (search_call (String dquote (text ++ String dquote "")) kw) c)).
  { unfold search_phrase. cbv zeta. apply (search_open eng _ kw c Hopen). }
  split_all.
  - exact Hrun.
  - intros He.
    pose proof (proj1 (closes_cleanly_all text)) as Hc. unfold closes_cleanly in Hc.
    rewrite He in Hc.
    change (phrase_token (String dquote (text ++ String dquote "")))
      with (string_token (text ++ String dquote "")).
    change (terminated (String dquote (text ++ String dquote "")))
      with (terminated_from true (text ++ String dquote "")).
    destruct (string_token (text ++ String dquote "")) as [[p rest]|] eqn:E.
    + right. exists p, rest. split; [reflexivity|].
      intros Hr. subst rest. apply (Hc p). reflexivity.
    + left. apply (proj1 (string_token_none_all _)). exact E.
  - intros Heng Ht. rewrite Hrun. cbn [fst]. unfold select_rows.
    rewrite (Heng _ Ht). reflexivity.
Qed.

(** The text with one quote in it: the string opened by that quote does not
    end, and the call raises. *)
Lemma search_phrase_wraps_verbatim_witness :
  escaped quoted_text = false /\
  terminated (String dquote (quoted_text ++ String dquote "")) = false /\
  fst (search_phrase token_engine quoted_text default_options token_store)
  = Raise (OperationalError QuerySyntax).
Proof.
  split; [reflexivity|]. split; [reflexivity|].
  destruct (search_phrase_wraps_verbatim token_engine quoted_text default_options
                                         token_store eq_refl)
    as [_ [_ H]].
  apply H; [|reflexivity].
  intros q Hq. simpl. destruct q as [|a q]; [reflexivity|].
  rewrite Hq. reflexivity.
Defined.

(** C7, as stated, fails: this text holds two quotes that are not escaped,
    and search_phrase neither raises nor runs a broken query on it: the
    query it runs is the phrase a, OR, the phrase b, every string of it
    ends, and the call returns. *)
Lemma search_phrase_quote_runs_two_phrases :
  escaped or_text = false /\
  String dquote (or_text ++ String dquote "")
  = (String dquote ("a" ++ String dquote "") ++ " OR "
     ++ String dquote ("b" ++ String dquote ""))%string /\
  phrase_token (String dquote ("a" ++ String dquote "")) = Some ("a", "") /\
  phrase_token (String dquote ("b" ++ String dquote "")) = Some ("b", "") /\
  terminated (String dquote (or_text ++ String dquote "")) = true /\
  search_phrase token_engine or_text default_options token_store
  = (Ok [],
     record_call
       (CallExecute SelectMatch [PyStr (String dquote (or_text ++ String dquote ""))])
       token_store).
Proof. split_all; reflexivity. Qed.

(** ** Result rows *)

(** C8. The rows of one search all have the shape the highlight flag asks
    for: without it each is (rowid, content) of a stored document; with it
    each is (rowid, highlighted, content), the highlighted text being the
    engine's and the content the stored one. *)
Theorem search_row_shape
        (eng : Engine) (query : string) (kw : search_options)
        (c c' : Connection) (rs : list tuple) :
  search eng query kw c = (Ok rs, c') ->
  if highlight kw
  then Forall (fun row =>
                 exists id content,
                   row = [PyInt id;
                          PyStr (fts5_highlight eng query (hl_prefix kw)
                                                (hl_suffix kw) content);
                          PyStr content] /\
                   In (id, content) (rows c)) rs
  else Forall (fun row =>
                 exists id content,
                   row = [PyInt id; PyStr content] /\
                   In (id, content) (rows c)) rs.
Proof.
  intros H. destruct (closed c) eqn:Hcl.
  - rewrite (search_closed eng query kw c Hcl) in H. discriminate.
  - rewrite (search_open eng query kw c Hcl) in H.
    unfold select_rows, hl_of in H.
    destruct (fts5_query eng query) as [matches|]; [|discriminate].
    inversion H; subst rs c'; clear H.
    destruct (highlight kw); apply Forall_forall; intros row Hrow;
      apply in_map_iff in Hrow; destruct Hrow as [[id content] [<- Hin]];
      apply filter_In in Hin; destruct Hin as [Hin _];
      exists id, content; (split; [reflexivity|exact Hin]).
Qed.

(** A search with and without highlighting on the store of document 7. *)
Lemma search_row_shape_witness :
  Forall (fun row =>
            exists id content,
              row = [PyInt id; PyStr ("<<" ++ content ++ ">>"); PyStr content] /\
              In (id, content) (rows store_of_seven))
         [[PyInt 7; PyStr "<<seven>>"; PyStr "seven"]].
Proof.
  apply (search_row_shape demo_engine "seven" (mkOptions true "<<" ">>")
                          store_of_seven
                          (record_call
                             (search_call "seven" (mkOptions true "<<" ">>"))
                             store_of_seven)).
  reflexivity.
Defined.

(** ** One term for a sequence *)

(** C9. A single string is taken as the sequence of that one string: for
    each of search_and, search_or and search_near the two calls are the
    same computation, on every store and with every option. *)
Theorem single_term_is_singleton
        (eng : Engine) (s : string) (max_distance : Z) (kw : search_options)
        (c : Connection) :
  search_and eng (Str s) kw c = search_and eng (Seq [s]) kw c /\
  search_or eng (Str s) kw c = search_or eng (Seq [s]) kw c /\
  search_near eng (Str s) max_distance kw c
  = search_near eng (Seq [s]) max_distance kw c.
Proof. split_all; reflexivity. Qed.

(** ** The empty batch *)

(** C10. add_documents with no documents leaves the rows of the store as
    they are, every search gives afterwards what it gave before, and on an
    open store the call returns without raising. *)
Theorem add_documents_empty_batch (eng : Engine) (c : Connection) :
  (closed c = false -> fst (add_documents eng [] c) = Ok tt) /\
  rows (snd (add_documents eng [] c)) = rows c /\
  forall (query : string) (kw : search_options),
    fst (search eng query kw (snd (add_documents eng [] c)))
    = fst (search eng query kw c).
Proof.
  destruct (closed c) eqn:Hcl.
  - rewrite (add_documents_closed eng [] c Hcl). simpl.
    split_all; [discriminate|reflexivity|].
    intros query kw. rewrite !search_closed by (simpl; exact Hcl). reflexivity.
  - rewrite (add_documents_open eng [] c Hcl). simpl.
    rewrite Hcl. simpl. split_all; try reflexivity.
    intros query kw. rewrite !search_open by (simpl; exact Hcl). reflexivity.
Qed.

(** The empty batch into the store of document 7. *)
Lemma add_documents_empty_batch_witness :
  fst (add_documents demo_engine [] store_of_seven) = Ok tt /\
  rows (snd (add_documents demo_engine [] store_of_seven)) = [(7, "seven")].
Proof.
  destruct (add_documents_empty_batch demo_engine store_of_seven) as [H1 [H2 _]].
  split; [exact (H1 eq_refl)|exact H2].
Defined.

(** * Further properties of the wrapper *)

(** ** The constructor *)

(** The constructor, step by step: without FTS5 it raises RuntimeError
    after the CREATE; with it, a batch that is not empty goes through
    add_documents. *)
Lemma new_db_unfold (eng : Engine) (documents : option (list document)) :
  new_db eng documents =
  if fts5_available eng then
    match documents with
    | Some (d :: ds) => add_documents eng (d :: ds) created_store
    | _ => (Ok tt, created_store)
    end
  else
    (Raise RuntimeError,
     record_call (CallExecute CreateDocuments [])
                 (record_call CallEnableLoadExtension connect)).
Proof.
  unfold new_db, __init__, conn_enable_load_extension, reraise_operational,
    conn_execute, connect, created_store.
  unfold bind, called, check_connection, begin_if_dml, bound, ret.
  cbn -[add_documents].
  destruct (fts5_available eng); cbn -[add_documents]; [|reflexivity].
  destruct documents as [[|d ds]|]; reflexivity.
Qed.

Lemma bind_parameters_error (st : statement) (args : tuple) (e : exn) :
  bind_parameters st args = Raise e ->
  e = ProgrammingError (IncorrectBindings (placeholders st) (List.length args)) \/
  e = OverflowError.
Proof.
  unfold bind_parameters.
  destruct (negb (Nat.eqb (List.length args) (placeholders st))).
  - intros H. inversion H. left. reflexivity.
  - destruct (forallb _ args); intros H; inversion H. right. reflexivity.
Qed.

(** What the loop of add_documents can raise. *)
Lemma run_many_error (eng : Engine) (st : statement) (docs : list document) :
  is_dml st = true ->
  forall (c c' : Connection) (e : exn),
    run_many eng st (build_params docs) c = (Raise e, c') ->
    insert_error e.
Proof.
  intros Hdml. induction docs as [|[[id|] s] docs IH]; intros c c' e H.
  - discriminate H.
  - simpl in H. unfold bind at 1 in H. unfold bound in H.
    destruct (bind_parameters st [PyInt id; PyStr s]) as [[]|e0] eqn:Hb.
    + unfold bind at 1 in H.
      destruct (step eng st [PyInt id; PyStr s] c) as [[rs|e1] c1] eqn:Hs.
      * apply (IH _ _ _ H).
      * inversion H; subst e1 c1.
        destruct st; try discriminate Hdml; simpl in Hs.
        -- destruct (has_rowid id (rows c)); inversion Hs.
           right. right. left. reflexivity.
        -- discriminate Hb.
    + inversion H; subst e0 c'.
      destruct (bind_parameters_error _ _ _ Hb) as [->| ->].
      * left. eexists. eexists. reflexivity.
      * right. left. reflexivity.
  - simpl in H. unfold bind at 1 in H. unfold bound in H.
    destruct (bind_parameters st [PyStr s]) as [[]|e0] eqn:Hb.
    + unfold bind at 1 in H.
      destruct (step eng st [PyStr s] c) as [[rs|e1] c1] eqn:Hs.
      * apply (IH _ _ _ H).
      * inversion H; subst e1 c1.
        destruct st; try discriminate Hdml; simpl in Hs.
        -- discriminate Hb.
        -- destruct (new_rowid eng (rows c)); inversion Hs.
           right. right. right. reflexivity.
    + inversion H; subst e0 c'.
      destruct (bind_parameters_error _ _ _ Hb) as [->| ->].
      * left. eexists. eexists. reflexivity.
      * right. left. reflexivity.
Qed.

(** What add_documents can raise on an open store. *)
Lemma add_documents_raises (eng : Engine) (docs : list document)
      (c : Connection) (e : exn) :
  closed c = false ->
  fst (add_documents eng docs c) = Raise e ->
  insert_error e.
Proof.
  intros Hopen H. rewrite (add_documents_open eng docs c Hopen) in H.
  destruct (run_many eng (batch_statement docs) (build_params docs) _)
    as [[[]|e1] c1] eqn:Hrun.
  - destruct (run_many_frame eng _ (batch_statement_dml docs) _ _ _ _ Hrun)
      as [Hcl _].
    simpl in Hcl. rewrite Hcl, Hopen in H. discriminate H.
  - simpl in H. inversion H; subst e1.
    apply (run_many_error eng _ docs (batch_statement_dml docs) _ _ _ Hrun).
Qed.

(** X1. The constructor raises RuntimeError exactly when the SQLite build
    has no FTS5: a batch that fails to insert raises its own exception. *)
Theorem constructor_runtime_error
        (eng : Engine) (documents : option (list document)) :
  fst (new_db eng documents) = Raise RuntimeError <-> fts5_available eng = false.
Proof.
  rewrite new_db_unfold. destruct (fts5_available eng); split; intros H;
    try reflexivity; try discriminate H.
  exfalso. destruct documents as [[|d ds]|]; try discriminate H.
  destruct (add_documents_raises eng (d :: ds) created_store RuntimeError
                                 eq_refl H)
    as [[u [k Hk]]|[Hk|[Hk|Hk]]]; discriminate Hk.
Qed.

(** X3. Documents given to the constructor under distinct 64-bit
    identifiers are all in the store it returns, which is open and
    committed. *)
Theorem constructor_stores_given (eng : Engine) (given : table) :
  fts5_available eng = true ->
  NoDup (rowids given) ->
  Forall (fun z => int64_ok z = true) (rowids given) ->
  exists c : Connection,
    new_db eng (Some (with_ids given)) = (Ok tt, c) /\
    Permutation (rows c) given /\
    closed c = false /\
    durable c = rows c /\
    in_transaction c = false.
Proof.
  intros Hav Hnd Hr. rewrite new_db_unfold, Hav.
  destruct given as [|[id s] given'].
  - exists created_store. split_all; reflexivity || constructor.
  - set (given := (id, s) :: given') in *.
    change (match with_ids given with
            | d :: ds => add_documents eng (d :: ds) created_store
            | [] => (Ok tt, created_store)
            end) with (add_documents eng (with_ids given) created_store).
    assert (Hok : store_ok (rows created_store)) by apply store_ok_nil.
    destruct (run_many_given eng given
                (begin_transaction
                   (record_call
                      (CallExecuteMany (batch_statement (with_ids given))
                                       (build_params (with_ids given)))
                      created_store)) Hnd Hr) as [c1 Hrun].
    { intros i _ []. }
    pose proof (add_documents_returns eng (with_ids given) created_store c1
                                      eq_refl Hok Hrun) as Hadd.
    destruct (add_documents_spec eng (with_ids given) created_store _ _
                                 eq_refl Hok Hadd)
      as [new [HP [_ [Hcl [HF Hlen]]]]].
    rewrite Hlen, firstn_all in HF. apply stored_as_with_ids in HF. subst new.
    eexists. split; [exact Hadd|]. split_all; try reflexivity.
    + rewrite app_nil_r in HP. exact HP.
    + exact Hcl.
Qed.

Lemma constructor_stores_given_witness :
  exists c : Connection,
    new_db demo_engine (Some (with_ids [(101, "fox"); (102, "dog")])) = (Ok tt, c) /\
    Permutation (rows c) [(101, "fox"); (102, "dog")].
Proof.
  destruct (constructor_stores_given demo_engine [(101, "fox"); (102, "dog")] eq_refl)
    as [c [H1 [H2 _]]].
  - repeat constructor; simpl; intuition discriminate.
  - repeat constructor.
  - exists c. split; assumption.
Defined.

(** ** One document *)

(** An INSERT under a free 64-bit rowid goes through and is committed. *)
Lemma add_document_fresh (eng : Engine) (content : string) (id : Z)
      (c : Connection) :
  closed c = false ->
  int64_ok id = true ->
  ~ In id (rowids (rows c)) ->
  add_document eng content (Some id) c =
  (Ok tt,
   commit_transaction
     (record_call CallCommit
        (set_rows (insert_row (id, content) (rows c))
           (begin_transaction
              (record_call
                 (CallExecute InsertRowidContent [PyInt id; PyStr content]) c))))).
Proof.
  intros Hopen Hid Hfresh. rewrite (add_document_open eng content (Some id) c Hopen).
  unfold bind_parameters. cbn [List.length placeholders Nat.eqb negb forallb].
  rewrite Hid. cbn [andb step begin_transaction record_call rows].
  apply has_rowid_false in Hfresh. rewrite Hfresh. simpl. rewrite Hopen.
  reflexivity.
Qed.

(** The rows of an accepted query: one per stored document it matches. *)
Lemma select_rows_ok (eng : Engine) (query : string) (kw : search_options)
      (matches : string -> bool) (t : table) :
  fts5_query eng query = Some matches ->
  select_rows eng (hl_of kw) query t
  = Ok (map (result_row eng query kw) (filter (fun r => matches (snd r)) t)).
Proof.
  intros Hq. unfold select_rows, hl_of, result_row. rewrite Hq.
  destruct (highlight kw); reflexivity.
Qed.

(** X4. On an open store a document inserted under a 64-bit identifier
    the store does not hold yet is stored under it, and the insert is
    committed when add_document returns. *)
Theorem add_document_stores_fresh_id
        (eng : Engine) (content : string) (id : Z) (c : Connection) :
  closed c = false ->
  int64_ok id = true ->
  ~ In id (rowids (rows c)) ->
  exists c' : Connection,
    add_document eng content (Some id) c = (Ok tt, c') /\
    Permutation (rows c') ((id, content) :: rows c) /\
    durable c' = rows c' /\
    in_transaction c' = false /\
    closed c' = false.
Proof.
  intros Hopen Hid Hfresh.
  rewrite (add_document_fresh eng content id c Hopen Hid Hfresh).
  eexists. split; [reflexivity|]. simpl. split_all; auto.
  apply insert_row_perm.
Qed.

Lemma add_document_stores_fresh_id_witness :
  exists c' : Connection,
    add_document demo_engine "eight" (Some 8) store_of_seven = (Ok tt, c') /\
    Permutation (rows c') ((8, "eight") :: rows store_of_seven).
Proof.
  destruct (add_document_stores_fresh_id demo_engine "eight" 8 store_of_seven)
    as [c' [H1 [H2 _]]].
  - reflexivity.
  - reflexivity.
  - simpl. intros [H|[]]. discriminate H.
  - exists c'. split; assumption.
Defined.

(** X5. Insert, then search: a document inserted under a fresh identifier
    is among the rows of every later search whose query the engine accepts
    and whose match accepts the document's text, in the shape the highlight
    flag asks for. *)
Theorem inserted_document_is_found
        (eng : Engine) (content : string) (id : Z) (c : Connection)
        (query : string) (kw : search_options) (matches : string -> bool) :
  closed c = false ->
  int64_ok id = true ->
  ~ In id (rowids (rows c)) ->
  fts5_query eng query = Some matches ->
  matches content = true ->
  exists rs : list tuple,
    fst (search eng query kw (snd (add_document eng content (Some id) c))) = Ok rs /\
    In (result_row eng query kw (id, content)) rs.
Proof.
  intros Hopen Hid Hfresh Hq Hm.
  rewrite (add_document_fresh eng content id c Hopen Hid Hfresh).
  cbn [snd]. rewrite search_open by (simpl; exact Hopen). cbn [fst].
  rewrite (select_rows_ok eng query kw matches _ Hq).
  eexists. split; [reflexivity|].
  apply in_map. apply filter_In. split; [|exact Hm].
  simpl. apply (Permutation_in _ (Permutation_sym (insert_row_perm _ _))).
  left. reflexivity.
Qed.

Lemma inserted_document_is_found_witness :
  exists rs : list tuple,
    fst (search demo_engine "eig" default_options
                (snd (add_document demo_engine "eight" (Some 8) store_of_seven)))
    = Ok rs /\
    In [PyInt 8; PyStr "eight"] rs.
Proof.
  apply (inserted_document_is_found demo_engine "eight" 8 store_of_seven
                                    "eig" default_options (contains "eig")).
  - reflexivity.
  - reflexivity.
  - simpl. intros [H|[]]. discriminate H.
  - reflexivity.
  - reflexivity.
Defined.

(** X6. An identifier outside 64 bits is refused before anything runs:
    add_document raises OverflowError and the rows, and what is committed,
    stay as they were. *)
Theorem add_document_rejects_wide_id
        (eng : Engine) (content : string) (id : Z) (c : Connection) :
  closed c = false ->
  int64_ok id = false ->
  fst (add_document eng content (Some id) c) = Raise OverflowError /\
  rows (snd (add_document eng content (Some id) c)) = rows c /\
  durable (snd (add_document eng content (Some id) c)) = durable c.
Proof.
  intros Hopen Hid. rewrite (add_document_open eng content (Some id) c Hopen).
  unfold bind_parameters. cbn [List.length placeholders Nat.eqb negb forallb].
  rewrite Hid. simpl. split_all; reflexivity.
Qed.

Lemma add_document_rejects_wide_id_witness :
  fst (add_document demo_engine "wide" (Some (2 ^ 63)) store_of_seven)
  = Raise OverflowError.
Proof.
  apply (add_document_rejects_wide_id demo_engine "wide" (2 ^ 63) store_of_seven);
    reflexivity.
Defined.

(** X7. add_document is all or nothing: when it raises, on any store and
    for any reason, the rows and what is committed are as they were. *)
Theorem add_document_failure_changes_nothing
        (eng : Engine) (content : string) (doc_id : option Z) (c : Connection)
        (e : exn) :
  fst (add_document eng content doc_id c) = Raise e ->
  rows (snd (add_document eng content doc_id c)) = rows c /\
  durable (snd (add_document eng content doc_id c)) = durable c.
Proof.
  destruct (closed c) eqn:Hcl.
  - intros _. unfold add_document, conn_execute.
    destruct doc_id; run_monad; rewrite Hcl; split; reflexivity.
  - rewrite (add_document_open eng content doc_id c Hcl).
    set (st := match doc_id with Some _ => InsertRowidContent | None => InsertContent end).
    set (args := match doc_id with
                 | Some id => [PyInt id; PyStr content]
                 | None => [PyStr content]
                 end).
    set (c0 := begin_transaction (record_call (CallExecute st args) c)).
    assert (Hdml : is_dml st = true) by (subst st; destruct doc_id; reflexivity).
    destruct (bind_parameters st args) as [[]|e0]; [|intros _; split; reflexivity].
    destruct (step eng st args c0) as [[rs|e1] c1] eqn:Hs.
    + destruct (step_insert eng _ _ _ _ _ Hdml Hs)
        as [[e' [He _]]|[id [x [_ [Hc1 _]]]]]; [discriminate He|].
      subst c1. simpl. rewrite Hcl. intros H. discriminate H.
    + destruct (step_insert eng _ _ _ _ _ Hdml Hs)
        as [[e' [_ ->]]|[id [x [He _]]]]; [|discriminate He].
      intros _. split; reflexivity.
Qed.

Lemma add_document_failure_changes_nothing_witness :
  rows (snd (add_document demo_engine "again" (Some 7) store_of_seven))
  = rows store_of_seven.
Proof.
  apply (add_document_failure_changes_nothing demo_engine "again" (Some 7)
                                              store_of_seven IntegrityError).
  reflexivity.
Defined.

(** X8. A document inserted without an identifier on an open store whose
    rowids are all below the largest 64-bit integer is stored under a rowid
    above every rowid of the store, 1 in an empty store, and the insert is
    committed. *)
Theorem add_document_assigns_next_rowid
        (eng : Engine) (content : string) (c : Connection) :
  closed c = false ->
  (forall i, In i (rowids (rows c)) -> i < INT64_MAX) ->
  exists (c' : Connection) (id : Z),
    add_document eng content None c = (Ok tt, c') /\
    Permutation (rows c') ((id, content) :: rows c) /\
    (forall i, In i (rowids (rows c)) -> i < id) /\
    (rows c = [] -> id = 1) /\
    durable c' = rows c'.
Proof.
  intros Hopen Hroom. rewrite (add_document_open eng content None c Hopen).
  cbn [bind_parameters List.length placeholders Nat.eqb negb forallb].
  unfold bind_parameters. cbn [List.length placeholders Nat.eqb negb forallb].
  cbn [step begin_transaction record_call rows].
  assert (Hn : exists id, new_rowid eng (rows c) = Some id /\
                          (forall i, In i (rowids (rows c)) -> i < id) /\
                          (rows c = [] -> id = 1)).
  { unfold new_rowid. destruct (max_rowid (rows c)) as [m|] eqn:E.
    - destruct (max_rowid_bound _ _ E) as [Hin Hle].
      assert (Hlt : (m <? INT64_MAX) = true) by (apply Z.ltb_lt, Hroom, Hin).
      rewrite Hlt. exists (m + 1). split_all; [reflexivity| |].
      + intros i Hi. specialize (Hle i Hi). lia.
      + intros Hnil. rewrite Hnil in Hin. destruct Hin.
    - apply max_rowid_none in E. exists 1. rewrite E.
      split_all; [reflexivity| |reflexivity]. intros i []. }
  destruct Hn as [id [Hn [Hgt H1]]]. rewrite Hn. simpl. rewrite Hopen.
  eexists. exists id. split; [reflexivity|]. simpl. split_all; auto.
  apply insert_row_perm.
Qed.

Lemma add_document_assigns_next_rowid_witness :
  exists (c' : Connection) (id : Z),
    add_document demo_engine "eight" None store_of_seven = (Ok tt, c') /\
    Permutation (rows c') ((id, "eight") :: rows store_of_seven) /\
    (forall i, In i (rowids (rows store_of_seven)) -> i < id).
Proof.
  destruct (add_document_assigns_next_rowid demo_engine "eight" store_of_seven)
    as [c' [id [H1 [H2 [H3 _]]]]].
  - reflexivity.
  - simpl. intros i [<-|[]]. reflexivity.
  - exists c', id. split_all; assumption.
Defined.

(** ** A batch of documents *)

(** A loop that got through bound every parameter set. *)
Lemma run_many_bound (eng : Engine) (st : statement) :
  forall (argss : list tuple) (c c' : Connection) (u : unit),
    run_many eng st argss c = (Ok u, c') ->
    Forall (fun args => bind_parameters st args = Ok tt) argss.
Proof.
  induction argss as [|args rest IH]; intros c c' u H; [constructor|].
  simpl in H. unfold bind at 1 in H. unfold bound in H.
  destruct (bind_parameters st args) as [[]|e] eqn:Hb; [|discriminate H].
  unfold bind at 1 in H.
  destruct (step eng st args c) as [[rs|e] c1]; [|discriminate H].
  constructor; [exact Hb|]. apply (IH _ _ _ H).
Qed.

(** X9. add_documents commits only when every insert got through: on an
    open store, when it returns the rows are committed and no transaction
    is open; when it raises nothing more is committed than before, and the
    transaction it opened stays open. *)
Theorem add_documents_commits_on_success
        (eng : Engine) (docs : list document) (c c' : Connection)
        (r : outcome unit) :
  closed c = false ->
  add_documents eng docs c = (r, c') ->
  match r with
  | Ok _ => durable c' = rows c' /\ in_transaction c' = false
  | Raise _ => durable c' = durable c /\ in_transaction c' = true
  end.
Proof.
  intros Hopen H. rewrite (add_documents_open eng docs c Hopen) in H.
  destruct (run_many eng (batch_statement docs) (build_params docs) _)
    as [r1 c1] eqn:Hrun.
  destruct (run_many_frame eng _ (batch_statement_dml docs) _ _ _ _ Hrun)
    as [Hcl [Hd [Ht _]]].
  simpl in Hcl, Hd, Ht. destruct r1 as [[]|e].
  - rewrite Hcl, Hopen in H. inversion H; subst r c'. simpl. auto.
  - inversion H; subst r c'. auto.
Qed.

Lemma add_documents_commits_on_success_witness :
  durable (snd (add_documents demo_engine clashing_batch empty_store)) = [] /\
  in_transaction (snd (add_documents demo_engine clashing_batch empty_store)) = true.
Proof.
  apply (add_documents_commits_on_success
           demo_engine clashing_batch empty_store
           (snd (add_documents demo_engine clashing_batch empty_store))
           (fst (add_documents demo_engine clashing_batch empty_store)));
    reflexivity.
Defined.

(** Parameter sets that all bind to one INSERT are all of its kind. *)
Lemma bound_batch_uniform (st : statement) (docs : list document) :
  Forall (fun args => bind_parameters st args = Ok tt) (build_params docs) ->
  match st with
  | InsertRowidContent => forallb has_id docs = true
  | InsertContent => forallb (fun d => negb (has_id d)) docs = true
  | _ => True
  end.
Proof.
  induction docs as [|[[id|] s] docs IH]; intros HF.
  - destruct st; reflexivity || exact I.
  - inversion HF as [|? ? Hx HF']; subst. specialize (IH HF').
    destruct st; try exact I; [exact IH|discriminate Hx].
  - inversion HF as [|? ? Hx HF']; subst. specialize (IH HF').
    destruct st; try exact I; [discriminate Hx|exact IH].
Qed.

(** X10. add_documents never returns from a batch that mixes documents
    with and without identifiers: when it returns, either every document
    of the batch came with one or none did. *)
Theorem add_documents_success_is_uniform
        (eng : Engine) (docs : list document) (c : Connection) :
  fst (add_documents eng docs c) = Ok tt ->
  forallb has_id docs = true \/ forallb (fun d => negb (has_id d)) docs = true.
Proof.
  intros H. destruct (closed c) eqn:Hcl.
  - rewrite (add_documents_closed eng docs c Hcl) in H. discriminate H.
  - rewrite (add_documents_open eng docs c Hcl) in H.
    destruct (run_many eng (batch_statement docs) (build_params docs) _)
      as [[[]|e] c1] eqn:Hrun; [|discriminate H].
    pose proof (run_many_bound eng _ _ _ _ _ Hrun) as Hb. clear H Hrun.
    pose proof (bound_batch_uniform (batch_statement docs) docs) as Hall.
    specialize (Hall Hb).
    destruct (batch_statement docs) eqn:Hst;
      try (pose proof (batch_statement_dml docs) as Hd; rewrite Hst in Hd;
           discriminate Hd).
    + left. exact Hall.
    + right. exact Hall.
Qed.

Lemma add_documents_success_is_uniform_witness :
  forallb has_id [(Some 1, "alpha"); (Some 2, "beta")] = true \/
  forallb (fun d => negb (has_id d)) [(Some 1, "alpha"); (Some 2, "beta")] = true.
Proof.
  apply (add_documents_success_is_uniform demo_engine _ empty_store).
  reflexivity.
Defined.



(** An INSERT without a rowid goes through when the table assigns one. *)
Lemma add_document_auto (eng : Engine) (content : string) (id : Z)
      (c : Connection) :
  closed c = false ->
  new_rowid eng (rows c) = Some id ->
  add_document eng content None c =
  (Ok tt,
   commit_transaction
     (record_call CallCommit
        (set_rows (insert_row (id, content) (rows c))
           (begin_transaction
              (record_call (CallExecute InsertContent [PyStr content]) c))))).
Proof.
  intros Hopen Hn. rewrite (add_document_open eng content None c Hopen).
  unfold bind_parameters. cbn [List.length placeholders Nat.eqb negb forallb].
  cbn [step begin_transaction record_call rows]. rewrite Hn. simpl.
  rewrite Hopen. reflexivity.
Qed.

(** The loop of executemany only adds rows. *)
Lemma run_many_grows (eng : Engine) (st : statement) :
  is_dml st = true ->
  forall (argss : list tuple) (c c' : Connection) (r : outcome unit),
    run_many eng st argss c = (r, c') ->
    forall row, In row (rows c) -> In row (rows c').
Proof.
  intros Hdml. induction argss as [|args rest IH]; intros c c' r H row Hin.
  - inversion H; subst. exact Hin.
  - simpl in H. unfold bind at 1 in H. unfold bound in H.
    destruct (bind_parameters st args) as [[]|e].
    + unfold bind at 1 in H.
      destruct (step eng st args c) as [[rs|e] c1] eqn:Hs.
      * destruct (step_insert eng _ _ _ _ _ Hdml Hs)
          as [[e [He _]]|[id [content [_ [Hc1 _]]]]]; [discriminate He|].
        apply (IH _ _ _ H). subst c1. simpl.
        apply (Permutation_in _ (Permutation_sym (insert_row_perm _ _))).
        right. exact Hin.
      * inversion H; subst.
        destruct (step_insert eng _ _ _ _ _ Hdml Hs)
          as [[e' [_ ->]]|[id [content [He _]]]]; [exact Hin|discriminate He].
    + inversion H; subst. exact Hin.
Qed.

(** Below the largest rowid the next rowid is the same whatever the table
    would draw at random. *)
Lemma new_rowid_below (eng eng' : Engine) (t : table) (id : Z) :
  (forall i, In i (rowids t) -> i < INT64_MAX) ->
  new_rowid eng t = Some id ->
  new_rowid eng' t = Some id.
Proof.
  intros Hroom. unfold new_rowid. destruct (max_rowid t) as [m|] eqn:E.
  - destruct (max_rowid_bound _ _ E) as [Hin _].
    assert (Hlt : (m <? INT64_MAX) = true) by (apply Z.ltb_lt, Hroom, Hin).
    rewrite Hlt. intros H. exact H.
  - intros H. exact H.
Qed.

(** The loop of executemany and a loop of add_document calls, started on
    the same rows, end on the same rows, when no rowid has to be drawn at
    random. *)
Lemma run_many_as_add_each (eng eng' : Engine) (st : statement) :
  is_dml st = true ->
  forall (docs : list document) (cA cA' cB : Connection),
    run_many eng st (build_params docs) cA = (Ok tt, cA') ->
    rows cB = rows cA ->
    closed cB = false ->
    (forallb has_id docs = true \/
     forall i, In i (rowids (rows cA')) -> i < INT64_MAX) ->
    exists cB' : Connection,
      add_each eng' docs cB = (Ok tt, cB') /\
      rows cB' = rows cA' /\
      closed cB' = false.
Proof.
  intros Hdml.
  induction docs as [|[[id|] s] docs IH]; intros cA cA' cB H Hrows Hopen Hroom.
  - inversion H; subst. exists cB. auto.
  - simpl in H. unfold bind at 1 in H. unfold bound in H.
    destruct (bind_parameters st [PyInt id; PyStr s]) as [[]|e] eqn:Hb;
      [|discriminate H].
    unfold bind at 1 in H.
    destruct (step eng st [PyInt id; PyStr s] cA) as [[rs|e] cA1] eqn:Hs;
      [|discriminate H].
    destruct st; try discriminate Hdml; try discriminate Hb.
    simpl in Hs. destruct (has_rowid id (rows cA)) eqn:Hfree; [discriminate Hs|].
    inversion Hs; subst rs cA1; clear Hs.
    assert (Hid : int64_ok id = true).
    { apply (proj2 (bind_parameters_ok _ _ Hb)). left. reflexivity. }
    assert (Hfresh : ~ In id (rowids (rows cB))).
    { rewrite Hrows. apply has_rowid_false, Hfree. }
    simpl. unfold bind at 1.
    rewrite (add_document_fresh eng' s id cB Hopen Hid Hfresh).
    eapply IH; [exact H| |simpl; exact Hopen|exact Hroom].
    simpl. rewrite Hrows. reflexivity.
  - simpl in H. unfold bind at 1 in H. unfold bound in H.
    destruct (bind_parameters st [PyStr s]) as [[]|e] eqn:Hb;
      [|discriminate H].
    unfold bind at 1 in H.
    destruct (step eng st [PyStr s] cA) as [[rs|e] cA1] eqn:Hs;
      [|discriminate H].
    destruct st; try discriminate Hdml; try discriminate Hb.
    simpl in Hs. destruct (new_rowid eng (rows cA)) as [id|] eqn:Hn;
      [|discriminate Hs].
    inversion Hs; subst rs cA1; clear Hs.
    destruct Hroom as [Hids|Hroom]; [discriminate Hids|].
    assert (Hbelow : forall i, In i (rowids (rows cA)) -> i < INT64_MAX).
    { intros i Hi. apply Hroom. unfold rowids in *.
      apply in_map_iff in Hi. destruct Hi as [row [Hf Hin]].
      apply in_map_iff. exists row. split; [exact Hf|].
      apply (run_many_grows eng InsertContent eq_refl _ _ _ _ H). simpl.
      apply (Permutation_in _ (Permutation_sym (insert_row_perm _ _))).
      right. exact Hin. }
    apply (new_rowid_below eng eng' _ _ Hbelow) in Hn.
    simpl. unfold bind at 1.
    rewrite <- Hrows in Hn.
    rewrite (add_document_auto eng' s id cB Hopen Hn).
    eapply IH; [exact H| |simpl; exact Hopen|right; exact Hroom].
    simpl. rewrite Hrows. reflexivity.
Qed.

(** X12. The bulk form agrees with one insert at a time: when
    add_documents returns on an open store and no rowid had to be drawn at
    random (every document came with its identifier, or no rowid of the
    resulting store is the largest 64-bit integer), calling add_document
    for each document of the batch in turn returns too and leaves the same
    rows, whatever the table of that run would draw at random. *)
Theorem bulk_insert_as_single_inserts
        (eng eng' : Engine) (docs : list document) (c c1 : Connection) :
  closed c = false ->
  add_documents eng docs c = (Ok tt, c1) ->
  (forallb has_id docs = true \/
   forall i, In i (rowids (rows c1)) -> i < INT64_MAX) ->
  exists c2 : Connection,
    add_each eng' docs c = (Ok tt, c2) /\
    rows c2 = rows c1 /\
    closed c2 = false.
Proof.
  intros Hopen H Hroom. rewrite (add_documents_open eng docs c Hopen) in H.
  destruct (run_many eng (batch_statement docs) (build_params docs) _)
    as [[[]|e] c0] eqn:Hrun; [|discriminate H].
  destruct (run_many_frame eng _ (batch_statement_dml docs) _ _ _ _ Hrun)
    as [Hcl _].
  simpl in Hcl. rewrite Hcl, Hopen in H. inversion H; subst c1. simpl in *.
  apply (run_many_as_add_each eng eng' _ (batch_statement_dml docs) docs _ c0 c Hrun);
    [reflexivity|exact Hopen|exact Hroom].
Qed.

(** Two documents without identifiers, in bulk on one engine and one at a
    time on another. *)
Lemma bulk_insert_as_single_inserts_witness :
  exists c2 : Connection,
    add_each token_engine [(None, "alpha"); (None, "beta")] empty_store = (Ok tt, c2) /\
    rows c2 = [(1, "alpha"); (2, "beta")].
Proof.
  destruct (bulk_insert_as_single_inserts
              demo_engine token_engine [(None, "alpha"); (None, "beta")] empty_store
              (snd (add_documents demo_engine [(None, "alpha"); (None, "beta")]
                                  empty_store)))
    as [c2 [H1 [H2 _]]].
  - reflexivity.
  - reflexivity.
  - right. simpl. intros i [<-|[<-|[]]]; reflexivity.
  - exists c2. split; [exact H1|exact H2].
Defined.

(** ** Searches *)

(** A search, on an open store or a closed one, leaves the call it made
    and nothing else. *)
Lemma search_state (eng : Engine) (query : string) (kw : search_options)
      (c : Connection) :
  snd (search eng query kw c) = record_call (search_call query kw) c.
Proof.
  destruct (closed c) eqn:Hcl.
  - rewrite (search_closed eng query kw c Hcl). reflexivity.
  - rewrite (search_open eng query kw c Hcl). reflexivity.
Qed.

Lemma bind_ret_state {A B : Type} (m : M A) (f : A -> B) (c : Connection) :
  snd ((x <- m ;; ret (f x)) c) = snd (m c).
Proof. unfold bind, ret. destruct (m c) as [[a|e] c']; reflexivity. Qed.

(** X13. No search method changes the store: after search, search_phrase,
    search_prefix, search_and, search_or, search_not or search_near the
    rows, what is committed, the open transaction and the closed flag are
    as before, and exactly one call was made on the connection. *)
Theorem search_changes_nothing (eng : Engine) (o : operation) (c : Connection) :
  is_search o = true ->
  rows (snd (perform eng o c)) = rows c /\
  durable (snd (perform eng o c)) = durable c /\
  in_transaction (snd (perform eng o c)) = in_transaction c /\
  closed (snd (perform eng o c)) = closed c /\
  exists k : call, calls (snd (perform eng o c)) = calls c ++ [k].
Proof.
  intros Hs. destruct o; try discriminate Hs; unfold perform;
    rewrite bind_ret_state;
    unfold search_phrase, search_prefix, search_and, search_or,
      search_not, search_near; cbv zeta;
    rewrite search_state; simpl; split_all; try reflexivity;
    eexists; reflexivity.
Qed.

Lemma search_changes_nothing_witness :
  rows (snd (perform demo_engine (SearchPrefix "sev" default_options)
                     store_of_seven))
  = rows store_of_seven.
Proof.
  apply (search_changes_nothing demo_engine (SearchPrefix "sev" default_options)
                                store_of_seven).
  reflexivity.
Defined.

Lemma result_row_inj (eng : Engine) (query : string) (kw : search_options)
      (r r' : Z * string) :
  result_row eng query kw r = result_row eng query kw r' -> r = r'.
Proof.
  unfold result_row. destruct r as [id s], r' as [id' s'].
  destruct (highlight kw); simpl; intros H; inversion H; reflexivity.
Qed.

Lemma row_id_result_row (eng : Engine) (query : string) (kw : search_options)
      (r : Z * string) :
  row_id (result_row eng query kw r) = Some (PyInt (fst r)).
Proof. unfold result_row, row_id. destruct (highlight kw); reflexivity. Qed.

Lemma row_content_result_row (eng : Engine) (query : string)
      (kw : search_options) (r : Z * string) :
  row_content (result_row eng query kw r) = Some (PyStr (snd r)).
Proof. unfold result_row, row_content. destruct (highlight kw); reflexivity. Qed.

Lemma NoDup_rowids_filter (f : Z * string -> bool) (t : table) :
  NoDup (rowids t) -> NoDup (rowids (filter f t)).
Proof.
  unfold rowids. induction t as [|r t IH]; intros H; [constructor|].
  simpl in H. inversion H as [|? ? Hr Hnd]; subst. simpl.
  destruct (f r); [|apply IH, Hnd].
  simpl. constructor; [|apply IH, Hnd].
  intros Hc. apply Hr. apply in_map_iff in Hc. destruct Hc as [x [Hx Hin]].
  apply in_map_iff. exists x. split; [exact Hx|].
  apply filter_In in Hin. apply Hin.
Qed.

(** X14. On an open store a search whose query the engine accepts returns
    the stored documents the query matches and nothing else, each of them
    once. *)
Theorem search_returns_the_matches
        (eng : Engine) (query : string) (kw : search_options) (c : Connection)
        (matches : string -> bool) :
  closed c = false ->
  store_ok (rows c) ->
  fts5_query eng query = Some matches ->
  exists rs : list tuple,
    fst (search eng query kw c) = Ok rs /\
    (forall (id : Z) (content : string),
        In (result_row eng query kw (id, content)) rs <->
        In (id, content) (rows c) /\ matches content = true) /\
    (forall row, In row rs -> exists r, row = result_row eng query kw r) /\
    NoDup (map row_id rs).
Proof.
  intros Hopen [Hnd _] Hq. rewrite (search_open eng query kw c Hopen). cbn [fst].
  rewrite (select_rows_ok eng query kw matches _ Hq).
  eexists. split; [reflexivity|]. split_all.
  - intros id content. rewrite in_map_iff. split.
    + intros [r [Hr Hin]]. apply result_row_inj in Hr. subst r.
      apply filter_In in Hin. exact Hin.
    + intros [Hin Hm]. exists (id, content). split; [reflexivity|].
      apply filter_In. split; assumption.
  - intros row Hrow. apply in_map_iff in Hrow. destruct Hrow as [r [<- _]].
    exists r. reflexivity.
  - rewrite map_map.
    rewrite (map_ext _ (fun r => Some (PyInt (fst r))))
      by (intros r; apply row_id_result_row).
    rewrite <- (map_map fst (fun z => Some (PyInt z))).
    apply Finite.Injective_map_NoDup.
    + intros x y H. inversion H. reflexivity.
    + apply (NoDup_rowids_filter _ _ Hnd).
Qed.

Lemma search_returns_the_matches_witness :
  exists rs : list tuple,
    fst (search demo_engine "seven" default_options store_of_seven) = Ok rs /\
    NoDup (map row_id rs).
Proof.
  destruct (search_returns_the_matches demo_engine "seven" default_options
                                       store_of_seven (contains "seven"))
    as [rs [H1 [_ [_ H2]]]].
  - reflexivity.
  - split; repeat constructor; simpl; tauto.
  - reflexivity.
  - exists rs. split; assumption.
Defined.

(** X15. The highlight options change the shape of the rows and nothing
    else: two searches with the same query on the same store, whatever
    their highlight flag and markers, both raise the same exception or
    return rows with the same identifiers and the same contents, in the
    same order. *)
Theorem highlight_keeps_the_documents
        (eng : Engine) (query : string) (kw1 kw2 : search_options)
        (c : Connection) :
  match fst (search eng query kw1 c), fst (search eng query kw2 c) with
  | Ok rs1, Ok rs2 =>
      map row_id rs1 = map row_id rs2 /\
      map row_content rs1 = map row_content rs2
  | Raise e1, Raise e2 => e1 = e2
  | _, _ => False
  end.
Proof.
  destruct (closed c) eqn:Hcl.
  - rewrite !search_closed by exact Hcl. reflexivity.
  - rewrite !search_open by exact Hcl. cbn [fst].
    destruct (fts5_query eng query) as [matches|] eqn:Hq.
    + rewrite (select_rows_ok eng query kw1 matches _ Hq),
        (select_rows_ok eng query kw2 matches _ Hq).
      rewrite !map_map. split; apply map_ext; intros r.
      * rewrite !row_id_result_row. reflexivity.
      * rewrite !row_content_result_row. reflexivity.
    + unfold select_rows. rewrite Hq. reflexivity.
Qed.

(** ** Joined terms *)

Lemma string_app_assoc (a b c : string) :
  ((a ++ b) ++ c)%string = (a ++ (b ++ c))%string.
Proof. induction a as [|x a IH]; simpl; [reflexivity|]. rewrite IH. reflexivity. Qed.

Lemma string_length_app (a b : string) :
  String.length (a ++ b) = (String.length a + String.length b)%nat.
Proof. induction a as [|x a IH]; simpl; [reflexivity|]. rewrite IH. reflexivity. Qed.

(** The length of joined terms: the terms, and one separator between each
    two. *)
Lemma length_join (sep : string) (l : list string) :
  (String.length (join sep l) + String.length sep
   = fold_right (fun s n => String.length s + String.length sep + n) 0 l
     + (match l with [] => String.length sep | _ => 0 end))%nat.
Proof.
  unfold join. induction l as [|x [|y l] IH].
  - reflexivity.
  - simpl. lia.
  - change (String.concat sep (x :: y :: l))
      with (x ++ sep ++ String.concat sep (y :: l))%string.
    rewrite !string_length_app.
    change (fold_right (fun s n => String.length s + String.length sep + n) 0
                       (x :: y :: l))%nat
      with (String.length x + String.length sep
            + fold_right (fun s n => String.length s + String.length sep + n) 0
                         (y :: l))%nat.
    lia.
Qed.

Lemma fold_lengths_sep (k : nat) (l : list string) :
  (fold_right (fun s n => String.length s + k + n) 0 l
   = fold_right (fun s n => String.length s + n) 0 l + k * List.length l)%nat.
Proof. induction l as [|x l IH]; simpl; [lia|]. rewrite IH. lia. Qed.

Lemma joined_and_or_differ (l : list string) :
  (2 <= List.length l)%nat -> join " AND " l <> join " OR " l.
Proof.
  intros Hlen Heq.
  pose proof (length_join " AND " l) as Ha.
  pose proof (length_join " OR " l) as Ho.
  rewrite Heq in Ha. rewrite fold_lengths_sep in Ha, Ho.
  destruct l as [|x [|y l]]; simpl in Hlen; try lia.
  cbn [String.length List.length] in Ha, Ho. lia.
Qed.

(** X16. With one term search_and and search_or are the same search; with
    two terms or more the call that search_and makes on the connection and
    the call that search_or makes never carry the same query. *)
Theorem and_or_queries
        (eng : Engine) (s : string) (l : list string) (kw : search_options)
        (c : Connection) :
  search_and eng (Seq [s]) kw c = search_or eng (Seq [s]) kw c /\
  ((2 <= List.length l)%nat ->
   calls (snd (search_and eng (Seq l) kw c))
   = calls c ++ [search_call (join " AND " l) kw] /\
   calls (snd (search_or eng (Seq l) kw c))
   = calls c ++ [search_call (join " OR " l) kw] /\
   search_call (join " AND " l) kw <> search_call (join " OR " l) kw).
Proof.
  split; [reflexivity|]. intros Hlen.
  unfold search_and, search_or, as_list. cbv zeta.
  rewrite !search_state. simpl. split_all; try reflexivity.
  intros Heq. apply (joined_and_or_differ l Hlen).
  unfold search_call in Heq. destruct (highlight kw); inversion Heq; reflexivity.
Qed.

Lemma and_or_queries_witness :
  calls (snd (search_and demo_engine (Seq ["quick"; "dog"]) default_options
                         empty_store))
  = calls empty_store ++ [CallExecute SelectMatch [PyStr "quick AND dog"]] /\
  calls (snd (search_or demo_engine (Seq ["quick"; "dog"]) default_options
                        empty_store))
  = calls empty_store ++ [CallExecute SelectMatch [PyStr "quick OR dog"]].
Proof.
  destruct (and_or_queries demo_engine "quick" ["quick"; "dog"] default_options
                           empty_store) as [_ H].
  destruct H as [Ha [Ho _]].
  - simpl. lia.
  - split; [exact Ha|exact Ho].
Defined.

(** Joining is blind to what a term holds. *)
Lemma join_flatten (sep : string) (l1 l2 l3 : list string) :
  l2 <> [] ->
  join sep (l1 ++ join sep l2 :: l3) = join sep (l1 ++ l2 ++ l3).
Proof.
  intros Hne. unfold join. induction l1 as [|x l1 IH].
  - simpl app.
    induction l2 as [|y l2 IH2]; [contradiction Hne; reflexivity|].
    destruct l2 as [|z l2].
    + reflexivity.
    + assert (Hz : z :: l2 <> []) by discriminate.
      specialize (IH2 Hz).
      change (String.concat sep (y :: z :: l2))
        with (y ++ sep ++ String.concat sep (z :: l2))%string.
      change ((y :: z :: l2) ++ l3) with (y :: ((z :: l2) ++ l3)).
      change (String.concat sep (y :: (z :: l2) ++ l3))
        with (y ++ sep ++ String.concat sep ((z :: l2) ++ l3))%string.
      rewrite <- IH2. destruct l3 as [|w l3].
      * reflexivity.
      * change (String.concat sep
                  ((y ++ sep ++ String.concat sep (z :: l2))%string :: w :: l3))
          with ((y ++ sep ++ String.concat sep (z :: l2)) ++ sep
                ++ String.concat sep (w :: l3))%string.
        change (String.concat sep (String.concat sep (z :: l2) :: w :: l3))
          with (String.concat sep (z :: l2) ++ sep
                ++ String.concat sep (w :: l3))%string.
        rewrite !string_app_assoc. reflexivity.
  - simpl app.
    destruct (l1 ++ String.concat sep l2 :: l3) as [|a r] eqn:E1.
    + destruct l1; discriminate E1.
    + destruct (l1 ++ l2 ++ l3) as [|b r'] eqn:E2.
      * destruct l1; [|discriminate E2]. destruct l2; [contradiction Hne; reflexivity|].
        discriminate E2.
      * change (String.concat sep (x :: a :: r))
          with (x ++ sep ++ String.concat sep (a :: r))%string.
        change (String.concat sep (x :: b :: r'))
          with (x ++ sep ++ String.concat sep (b :: r'))%string.
        rewrite IH. reflexivity.
Qed.

(** X17. Terms are joined as they are, so a term that holds the operator
    is read as several: giving search_and, search_or or search_near the
    joined form of some terms in place of those terms is the same search. *)
Theorem joined_term_is_its_terms
        (eng : Engine) (l1 l2 l3 : list string) (max_distance : Z)
        (kw : search_options) (c : Connection) :
  l2 <> [] ->
  search_and eng (Seq (l1 ++ join " AND " l2 :: l3)) kw c
  = search_and eng (Seq (l1 ++ l2 ++ l3)) kw c /\
  search_or eng (Seq (l1 ++ join " OR " l2 :: l3)) kw c
  = search_or eng (Seq (l1 ++ l2 ++ l3)) kw c /\
  search_near eng (Seq (l1 ++ join " " l2 :: l3)) max_distance kw c
  = search_near eng (Seq (l1 ++ l2 ++ l3)) max_distance kw c.
Proof.
  intros Hne. unfold search_and, search_or, search_near, as_list. cbv zeta.
  rewrite !(join_flatten _ l1 l2 l3 Hne). split_all; reflexivity.
Qed.

Lemma joined_term_is_its_terms_witness :
  search_and demo_engine (Seq ["fox AND dog"]) default_options store_of_seven
  = search_and demo_engine (Seq ["fox"; "dog"]) default_options store_of_seven.
Proof.
  destruct (joined_term_is_its_terms demo_engine [] ["fox"; "dog"] [] 10
                                     default_options store_of_seven)
    as [H _].
  - discriminate.
  - exact H.
Defined.
